(** * pico-baremetal: boot, vector table and SysTick blink on the RP2040

    A shallow embedding of [src/startup.c], [src/vectors.c] and
    [src/main.c].  32-bit values are integers in [Z] with the wrap-around
    written out; C loops are run with a fuel bound, [None] meaning "has not
    left the loop within that many iterations"; memory-mapped accesses are
    recorded, in program order, in a trace. *)

From Stdlib Require Import ZArith List Lia Bool.
From stdpp Require Import base numbers list functions.
Import ListNotations.
Local Open Scope Z_scope.

(** * Part I: the program *)

(** ** C loops with a fuel bound *)

(** [while (cond) body;] where evaluating [cond] may itself change the
    state (a volatile read).  One unit of fuel pays for one evaluation of
    the condition. *)
Fixpoint while_ {St : Type} (fuel : nat) (cond : St -> bool * St)
    (body : St -> St) (s : St) : option St :=
  match fuel with
  | O => None
  | S fuel' =>
      let (b, s') := cond s in
      if b then while_ fuel' cond body (body s') else Some s'
  end.

(** [while (1);] and [while (1) { }]: condition constantly true, empty body. *)
Definition forever {St : Type} (fuel : nat) (s : St) : option St :=
  while_ fuel (fun s => (true, s)) (fun s => s) s.

(** ** 32-bit arithmetic *)

Definition wrap32 (x : Z) : Z := x mod 2 ^ 32.

(** ** startup.c: the Reset Sequencer *)

Module Startup.

(** Working memory and flash share one 32-bit address space.  A cell is
    the [uint32_t] stored at a byte address; every access of the reset
    code is a word access through a [uint32_t *]. *)
Definition mem := Z -> Z.

(** The linker-provided symbols: only their addresses are used. *)
Record symbols := {
  _data_start : Z;
  _data_end : Z;
  _data_flash : Z;
  _bss_start : Z;
  _bss_end : Z
}.

(** [p++] on a [uint32_t *]: the address advances by [sizeof(uint32_t)]. *)
Definition ptr_inc (p : Z) : Z := wrap32 (p + 4).

(** The locals [src], [dst] of [Reset_Handler] and the memory. *)
Record state := {
  src : Z;
  dst : Z;
  ram : mem
}.

(** [while (dst < &_data_end) *dst++ = *src++;] *)
Definition copy_cond (ld : symbols) (s : state) : bool * state :=
  (dst s <? _data_end ld, s).

Definition copy_body (s : state) : state :=
  {| src := ptr_inc (src s);
     dst := ptr_inc (dst s);
     ram := <[dst s := ram s (src s)]> (ram s) |}.

(** [src = &_data_flash; dst = &_data_start;] then the copy loop. *)
Definition copy_data (ld : symbols) (fuel : nat) (m : mem) : option state :=
  while_ fuel (copy_cond ld) copy_body
    {| src := _data_flash ld; dst := _data_start ld; ram := m |}.

(** [while (dst < &_bss_end) *dst++ = 0;] *)
Definition zero_cond (ld : symbols) (s : state) : bool * state :=
  (dst s <? _bss_end ld, s).

Definition zero_body (s : state) : state :=
  {| src := src s;
     dst := ptr_inc (dst s);
     ram := <[dst s := 0]> (ram s) |}.

(** [dst = &_bss_start;] then the zero-fill loop. *)
Definition zero_bss (ld : symbols) (fuel : nat) (s : state) : option state :=
  while_ fuel (zero_cond ld) zero_body
    {| src := src s; dst := _bss_start ld; ram := ram s |}.

(** Steps 1 and 2 of [Reset_Handler]: the state in which [main] is called. *)
Definition Reset_Handler_prepare (ld : symbols) (fuel : nat) (m : mem)
    : option state :=
  match copy_data ld fuel m with
  | Some s => zero_bss ld fuel s
  | None => None
  end.

(** Word alignment of an address. *)
Definition word_aligned (a : Z) : Prop := a mod 4 = 0.

(** The number of whole words from [lo] up to [hi]. *)
Definition words (lo hi : Z) : nat := Z.to_nat ((hi - lo) / 4).

(** A small layout in the RP2040's address map: four words of [.data]
    seeded from flash, four words of [.bss] after them. *)
Definition demo_symbols : symbols :=
  {| _data_start := 0x20000000; _data_end := 0x20000010;
     _data_flash := 0x10000400;
     _bss_start := 0x20000010; _bss_end := 0x20000020 |}.

(** [void Reset_Handler(void)] as a whole: the two loops, the call of
    [main], and the trap [while(1);] after it.  [main] is external to
    startup.c: any routine over an application state [App], which may or
    may not return. *)
Definition Reset_Handler {App : Type} (main : nat -> App -> option App)
    (ld : symbols) (fuel : nat) (m : mem) (a : App) : option (state * App) :=
  match Reset_Handler_prepare ld fuel m with
  | Some s =>
      match main fuel a with
      | Some a' => forever fuel (s, a')
      | None => None
      end
  | None => None
  end.

End Startup.

(** ** vectors.c: the vector table and the weak default handlers *)

Module Vectors.

(** [void Default_Handler(void) { while(1); }] *)
Definition Default_Handler (fuel : nat) : option unit := forever fuel tt.

(** The names declared [__attribute__((weak, alias("Default_Handler")))]. *)
Inductive handler :=
| NMI_Handler | HardFault_Handler | SVC_Handler | PendSV_Handler
| SysTick_Handler
| TIMER_IRQ0_Handler | TIMER_IRQ1_Handler | TIMER_IRQ2_Handler
| TIMER_IRQ3_Handler | PWM_IRQ_Handler | USBCTRL_IRQ_Handler
| PIO0_IRQ0_Handler | PIO0_IRQ1_Handler | PIO1_IRQ0_Handler
| PIO1_IRQ1_Handler | DMA_IRQ0_Handler | DMA_IRQ1_Handler | IO_IRQ_Handler
| SPI0_IRQ_Handler | SPI1_IRQ_Handler | UART0_IRQ_Handler
| UART1_IRQ_Handler | ADC_IRQ_Handler | I2C0_IRQ_Handler | I2C1_IRQ_Handler
| RTC_IRQ_Handler.

(** One initializer of [vector_table[]], as written in the source. *)
Inductive entry :=
| StackTop                (* (uint32_t)&_stack_top *)
| Reset                   (* (uint32_t)&Reset_Handler *)
| Weak (h : handler)      (* (uint32_t)&h, h a weak alias *)
| Zero.                   (* 0 *)

Definition vector_table_init : list entry :=
  [ StackTop;
    Reset;                    (*  1 - Reset *)
    Weak NMI_Handler;         (*  2 - Non Maskable Interrupt *)
    Weak HardFault_Handler;   (*  3 - Hard Fault *)
    Zero;                     (*  4 - Reserved *)
    Zero;                     (*  5 - Reserved *)
    Zero;                     (*  6 - Reserved *)
    Zero;                     (*  7 - Reserved *)
    Zero;                     (*  8 - Reserved *)
    Zero;                     (*  9 - Reserved *)
    Zero;                     (* 10 - Reserved *)
    Weak SVC_Handler;         (* 11 - Supervisor Call *)
    Zero;                     (* 12 - Reserved *)
    Zero;                     (* 13 - Reserved *)
    Weak PendSV_Handler;      (* 14 - Pendable Service Call *)
    Weak SysTick_Handler;     (* 15 - System Tick Timer *)
    Weak TIMER_IRQ0_Handler;  (* 16 - IRQ0  Timer 0 *)
    Weak TIMER_IRQ1_Handler;  (* 17 - IRQ1  Timer 1 *)
    Weak TIMER_IRQ2_Handler;  (* 18 - IRQ2  Timer 2 *)
    Weak TIMER_IRQ3_Handler;  (* 19 - IRQ3  Timer 3 *)
    Weak PWM_IRQ_Handler;     (* 20 - IRQ4  PWM *)
    Weak USBCTRL_IRQ_Handler; (* 21 - IRQ5  USB *)
    Zero;                     (* 22 - IRQ6  XIP *)
    Weak PIO0_IRQ0_Handler;   (* 23 - IRQ7  PIO0 IRQ0 *)
    Weak PIO0_IRQ1_Handler;   (* 24 - IRQ8  PIO0 IRQ1 *)
    Weak PIO1_IRQ0_Handler;   (* 25 - IRQ9  PIO1 IRQ0 *)
    Weak PIO1_IRQ1_Handler;   (* 26 - IRQ10 PIO1 IRQ1 *)
    Weak DMA_IRQ0_Handler;    (* 27 - IRQ11 DMA 0 *)
    Weak DMA_IRQ1_Handler;    (* 28 - IRQ12 DMA 1 *)
    Weak IO_IRQ_Handler;      (* 29 - IRQ13 GPIO *)
    Zero;                     (* 30 - IRQ14 QSPI *)
    Zero;                     (* 31 - IRQ15 SIO PROC0 *)
    Zero;                     (* 32 - IRQ16 SIO PROC1 *)
    Zero;                     (* 33 - IRQ17 Clocks *)
    Weak SPI0_IRQ_Handler;    (* 34 - IRQ18 SPI0 *)
    Weak SPI1_IRQ_Handler;    (* 35 - IRQ19 SPI1 *)
    Weak UART0_IRQ_Handler;   (* 36 - IRQ20 UART0 *)
    Weak UART1_IRQ_Handler;   (* 37 - IRQ21 UART1 *)
    Weak ADC_IRQ_Handler;     (* 38 - IRQ22 ADC *)
    Weak I2C0_IRQ_Handler;    (* 39 - IRQ23 I2C0 *)
    Weak I2C1_IRQ_Handler;    (* 40 - IRQ24 I2C1 *)
    Weak RTC_IRQ_Handler      (* 41 - IRQ25 RTC *)
  ].

(** What the linker knows of one image: the value of [_stack_top], the
    addresses of [Reset_Handler] (startup.c) and of [Default_Handler], and,
    for each weak name, the address of a same-named strong definition
    elsewhere in the image, if there is one. *)
Record image := {
  _stack_top : Z;
  Reset_Handler_addr : Z;
  Default_Handler_addr : Z;
  strong : handler -> option Z
}.

(** The routine a weak name is bound to. *)
Inductive routine :=
| Fallback                 (* Default_Handler *)
| Override (h : handler).  (* the application's own definition of h *)

(** Weak-alias resolution: a strong definition wins, otherwise the name is
    another name for [Default_Handler]. *)
Definition resolve (img : image) (h : handler) : routine :=
  match strong img h with
  | Some _ => Override h
  | None => Fallback
  end.

Definition routine_addr (img : image) (r : routine) : Z :=
  match r with
  | Fallback => Default_Handler_addr img
  | Override h =>
      match strong img h with
      | Some a => a
      | None => Default_Handler_addr img
      end
  end.

(** The 32-bit value the linker stores for one initializer. *)
Definition link (img : image) (e : entry) : Z :=
  match e with
  | StackTop => _stack_top img
  | Reset => Reset_Handler_addr img
  | Weak h => routine_addr img (resolve img h)
  | Zero => 0
  end.

(** [const uint32_t vector_table[]] as it sits in flash. *)
Definition vector_table (img : image) : list Z :=
  map (link img) vector_table_init.

(** Exception entry: the core fetches slot [k] (at VTOR + 4k) and branches
    to the value found there. *)
Definition exception_target (img : image) (k : nat) : option Z :=
  vector_table img !! k.

(** The exception and interrupt numbering the table is laid out against, as
    the source's per-slot comments give it: ARMv6-M system exceptions in
    slots 1 to 15, the RP2040's interrupt lines IRQ0 to IRQ25 in slots 16
    to 41.  [None]: the number is reserved on the Cortex-M0+ (or is slot 0,
    which is no exception). *)
Inductive exception :=
| Exc_Reset | Exc_NMI | Exc_HardFault | Exc_SVCall | Exc_PendSV | Exc_SysTick
| IRQ (n : nat).

Definition assigned (k : nat) : option exception :=
  match k with
  | 1 => Some Exc_Reset
  | 2 => Some Exc_NMI
  | 3 => Some Exc_HardFault
  | 11 => Some Exc_SVCall
  | 14 => Some Exc_PendSV
  | 15 => Some Exc_SysTick
  | _ => if ((16 <=? k) && (k <=? 41))%nat then Some (IRQ (k - 16)) else None
  end%nat.

(** The exception each declared handler name stands for. *)
Definition handler_exception (h : handler) : exception :=
  match h with
  | NMI_Handler => Exc_NMI
  | HardFault_Handler => Exc_HardFault
  | SVC_Handler => Exc_SVCall
  | PendSV_Handler => Exc_PendSV
  | SysTick_Handler => Exc_SysTick
  | TIMER_IRQ0_Handler => IRQ 0
  | TIMER_IRQ1_Handler => IRQ 1
  | TIMER_IRQ2_Handler => IRQ 2
  | TIMER_IRQ3_Handler => IRQ 3
  | PWM_IRQ_Handler => IRQ 4
  | USBCTRL_IRQ_Handler => IRQ 5
  | PIO0_IRQ0_Handler => IRQ 7
  | PIO0_IRQ1_Handler => IRQ 8
  | PIO1_IRQ0_Handler => IRQ 9
  | PIO1_IRQ1_Handler => IRQ 10
  | DMA_IRQ0_Handler => IRQ 11
  | DMA_IRQ1_Handler => IRQ 12
  | IO_IRQ_Handler => IRQ 13
  | SPI0_IRQ_Handler => IRQ 18
  | SPI1_IRQ_Handler => IRQ 19
  | UART0_IRQ_Handler => IRQ 20
  | UART1_IRQ_Handler => IRQ 21
  | ADC_IRQ_Handler => IRQ 22
  | I2C0_IRQ_Handler => IRQ 23
  | I2C1_IRQ_Handler => IRQ 24
  | RTC_IRQ_Handler => IRQ 25
  end.

(** The image this repository builds: main.c defines [SysTick_Handler],
    every other weak name is left to the fallback.  The addresses are
    those of one possible link. *)
Definition blink_image : image :=
  {| _stack_top := 0x20042000;
     Reset_Handler_addr := 0x100001a9;
     Default_Handler_addr := 0x100001f1;
     strong := fun h =>
       match h with
       | SysTick_Handler => Some 0x100001f5
       | _ => None
       end |}.

End Vectors.

(** ** main.c: peripheral bring-up and the SysTick handler *)

Module Main.

(** *** Register addresses and bit masks *)

Definition RESETS_BASE : Z := 0x4000C000.
Definition RESETS_RESET : Z := RESETS_BASE + 0x000.
Definition RESETS_RESET_CLR : Z := RESETS_BASE + 0x3000.
Definition RESETS_RESET_DONE : Z := RESETS_BASE + 0x008.

Definition RESET_IO_BANK0 : Z := Z.shiftl 1 5.
Definition RESET_PADS_BANK0 : Z := Z.shiftl 1 8.

Definition PADS_BANK0_BASE : Z := 0x4001C000.
Definition PADS_GPIO25 : Z := PADS_BANK0_BASE + 0x068.

Definition IO_BANK0_BASE : Z := 0x40014000.
Definition GPIO25_CTRL : Z := IO_BANK0_BASE + 0x0CC.
Definition FUNCSEL_SIO : Z := 5.

Definition SIO_BASE : Z := 0xD0000000.
Definition GPIO_OUT_XOR : Z := SIO_BASE + 0x01C.
Definition GPIO_OE_SET : Z := SIO_BASE + 0x024.

Definition SYST_CSR : Z := 0xE000E010.
Definition SYST_RVR : Z := 0xE000E014.
Definition SYST_CVR : Z := 0xE000E018.

Definition LED_PIN : Z := 25.
Definition LED_MASK : Z := Z.shiftl 1 LED_PIN.

(** The registers behind the two SIO aliases the program writes: the
    output level and the output enable of the GPIO pins. *)
Definition GPIO_OUT : Z := SIO_BASE + 0x010.
Definition GPIO_OE : Z := SIO_BASE + 0x020.

(** *** The machine *)

(** One access through [MMIO32(addr)]. *)
Inductive event :=
| Write32 (addr value : Z)
| Read32 (addr value : Z).

(** [tick_count] is the program's only variable.  [regs] holds the
    registers by address.  The reset-done status is driven by the hardware
    alone: [reset_done i] is what the [i]-th read of RESETS_RESET_DONE
    returns, [polls] counts the reads made so far.  [trace] lists the
    accesses in program order. *)
Record machine := {
  tick_count : Z;
  regs : Z -> Z;
  reset_done : nat -> Z;
  polls : nat;
  trace : list event
}.

(** What a write does to the registers, as the source's comments describe
    the hardware: the CLR alias clears the given bits of RESETS_RESET, the
    SET alias raises the given output-enable bits, the XOR alias flips the
    given output bits, a write of any value to SYST_CVR clears the count;
    any other address is a plain register. *)
Definition store (addr value : Z) (r : Z -> Z) : Z -> Z :=
  if addr =? RESETS_RESET_CLR then
    <[RESETS_RESET := Z.ldiff (r RESETS_RESET) value]> r
  else if addr =? GPIO_OUT_XOR then
    <[GPIO_OUT := Z.lxor (r GPIO_OUT) value]> r
  else if addr =? GPIO_OE_SET then
    <[GPIO_OE := Z.lor (r GPIO_OE) value]> r
  else if addr =? SYST_CVR then
    <[SYST_CVR := 0]> r
  else
    <[addr := value]> r.

(** [MMIO32(addr) = value;] *)
Definition write32 (addr value : Z) (m : machine) : machine :=
  {| tick_count := tick_count m;
     regs := store addr value (regs m);
     reset_done := reset_done m;
     polls := polls m;
     trace := trace m ++ [Write32 addr value] |}.

(** [... = MMIO32(addr)] *)
Definition read32 (addr : Z) (m : machine) : Z * machine :=
  if addr =? RESETS_RESET_DONE then
    let v := reset_done m (polls m) in
    (v, {| tick_count := tick_count m;
           regs := regs m;
           reset_done := reset_done m;
           polls := S (polls m);
           trace := trace m ++ [Read32 addr v] |})
  else
    let v := regs m addr in
    (v, {| tick_count := tick_count m;
           regs := regs m;
           reset_done := reset_done m;
           polls := polls m;
           trace := trace m ++ [Read32 addr v] |}).

Definition set_tick_count (t : Z) (m : machine) : machine :=
  {| tick_count := t;
     regs := regs m;
     reset_done := reset_done m;
     polls := polls m;
     trace := trace m |}.

(** *** The program *)

(** [void SysTick_Handler(void)] *)
Definition SysTick_Handler (m : machine) : machine :=
  (* tick_count++; *)
  let m1 := set_tick_count (wrap32 (tick_count m + 1)) m in
  (* if ((tick_count % 500) == 0) GPIO_OUT_XOR = LED_MASK; *)
  if tick_count m1 mod 500 =? 0 then write32 GPIO_OUT_XOR LED_MASK m1
  else m1.

(** The condition of the polling loop of [resets_init]: one read of the
    status register per evaluation. *)
Definition resets_cond (m : machine) : bool * machine :=
  let (status, m') := read32 RESETS_RESET_DONE m in
  (negb (Z.land status (Z.lor RESET_IO_BANK0 RESET_PADS_BANK0)
         =? Z.lor RESET_IO_BANK0 RESET_PADS_BANK0), m').

(** [static void resets_init(void)] *)
Definition resets_init (fuel : nat) (m : machine) : option machine :=
  (* RESETS_RESET_CLR = RESET_IO_BANK0 | RESET_PADS_BANK0; *)
  let m1 := write32 RESETS_RESET_CLR (Z.lor RESET_IO_BANK0 RESET_PADS_BANK0) m in
  (* while ((RESETS_RESET_DONE & (...)) != (...)); *)
  while_ fuel resets_cond (fun s => s) m1.

(** [static void gpio_init(void)] *)
Definition gpio_init (m : machine) : machine :=
  let m1 := write32 GPIO25_CTRL FUNCSEL_SIO m in
  let m2 := write32 GPIO_OE_SET LED_MASK m1 in
  write32 GPIO_OUT_XOR LED_MASK m2.

(** [static void systick_init(void)] *)
Definition systick_init (m : machine) : machine :=
  let ticks_per_ms := 6000 in
  let m1 := write32 SYST_RVR (wrap32 (ticks_per_ms - 1)) m in
  let m2 := write32 SYST_CVR 0 m1 in
  write32 SYST_CSR
    (Z.lor (Z.lor (Z.shiftl 1 2) (Z.shiftl 1 1)) (Z.shiftl 1 0)) m2.

(** The three calls that open [main]. *)
Definition main_init (fuel : nat) (m : machine) : option machine :=
  match resets_init fuel m with
  | Some m1 => Some (systick_init (gpio_init m1))
  | None => None
  end.

(** [int main(void)]: bring-up, then [while (1) { }]. *)
Definition main (fuel : nat) (m : machine) : option machine :=
  match main_init fuel m with
  | Some m1 => forever fuel m1
  | None => None
  end.

(** [n] timer expiries: the handler runs to completion each time. *)
Fixpoint fire (n : nat) (m : machine) : machine :=
  match n with
  | O => m
  | S n' => SysTick_Handler (fire n' m)
  end.

(** *** Observations on a trace *)

(** A write that flips the LED pin through the toggle alias. *)
Definition is_toggle (e : event) : bool :=
  match e with
  | Write32 a v => (a =? GPIO_OUT_XOR) && Z.testbit v LED_PIN
  | Read32 _ _ => false
  end.

Definition toggles (t : list event) : nat := length (List.filter is_toggle t).

(** A write that can change the output level of a pin: one to the
    output register or to one of its aliases, which the SIO block lays
    out from [GPIO_OUT] up to [GPIO_OUT_XOR]. *)
Definition writes_gpio_out (e : event) : bool :=
  match e with
  | Write32 a _ => (GPIO_OUT <=? a) && (a <=? GPIO_OUT_XOR)
  | Read32 _ _ => false
  end.

(** The reload value the specification asks for: the core clock frequency
    divided by the tick rate, counted down to zero. *)
Definition reload_for (clock_hz tick_hz : Z) : Z := clock_hz / tick_hz - 1.

(** The events of [m'] that were not yet in the trace of [m]. *)
Definition since (m m' : machine) : list event :=
  skipn (length (trace m)) (trace m').

(** [k] successive reads of the status register, the first of them being
    the [p]-th read since power-on. *)
Fixpoint status_reads (done : nat -> Z) (p k : nat) : list event :=
  match k with
  | O => []
  | S k' => Read32 RESETS_RESET_DONE (done p) :: status_reads done (S p) k'
  end.

(** The status word shows both blocks out of reset. *)
Definition ready (status : Z) : Prop :=
  Z.land status (Z.lor RESET_IO_BANK0 RESET_PADS_BANK0)
  = Z.lor RESET_IO_BANK0 RESET_PADS_BANK0.

(** The machine at power-on: every peripheral held in reset, the counter
    at its initial value, nothing accessed yet; [done] is how the
    hardware will answer the status reads. *)
Definition power_on (done : nat -> Z) : machine :=
  {| tick_count := 0;
     regs := fun a => if a =? RESETS_RESET then 0x01ffffff else 0;
     reset_done := done;
     polls := 0;
     trace := [] |}.

(** A reset block that reports ready from its [n]-th status read on. *)
Definition settles_after (n : nat) : nat -> Z :=
  fun i => if (i <? n)%nat then 0
           else Z.lor RESET_IO_BANK0 RESET_PADS_BANK0.

End Main.

(** * Part II: properties *)

(** ** Loops *)

Lemma while_fuel_mono {St : Type} (cond : St -> bool * St) (body : St -> St)
    (fuel fuel' : nat) (s r : St) :
  while_ fuel cond body s = Some r -> (fuel <= fuel')%nat ->
  while_ fuel' cond body s = Some r.
Proof.
  revert fuel' s. induction fuel as [|n IH]; intros fuel' s H Hle.
  - discriminate.
  - destruct fuel' as [|n']; [lia|]. simpl in *.
    destruct (cond s) as [b s1]. destruct b; [|exact H].
    apply IH; [exact H | lia].
Qed.

Lemma forever_diverges {St : Type} (fuel : nat) (s : St) :
  forever fuel s = None.
Proof.
  unfold forever. revert s.
  induction fuel as [|n IH]; intros s; simpl; [reflexivity | apply IH].
Qed.

Lemma wrap32_small (x : Z) : 0 <= x < 2 ^ 32 -> wrap32 x = x.
Proof. intros H. unfold wrap32. apply Z.mod_small. exact H. Qed.

(** ** The Reset Sequencer *)

Section StartupProofs.
Import Startup.

(** The copy loop started [n] words before [_data_end]: it leaves after
    [n] iterations, touches nothing outside [dst .. _data_end), and each
    word of the target holds what the source held when the loop began. *)
Lemma copy_loop_run (ld : symbols) (n : nat) :
  forall s : state,
  0 <= dst s -> dst s + 4 * Z.of_nat n = _data_end ld ->
  _data_end ld < 2 ^ 32 ->
  0 <= src s -> src s + 4 * Z.of_nat n < 2 ^ 32 ->
  (src s + 4 * Z.of_nat n <= dst s \/ _data_end ld <= src s) ->
  exists s',
    while_ (S n) (copy_cond ld) copy_body s = Some s' /\
    dst s' = _data_end ld /\
    (forall a, a < dst s \/ _data_end ld <= a -> ram s' a = ram s a) /\
    (forall i, 0 <= i < Z.of_nat n ->
       ram s' (dst s + 4 * i) = ram s (src s + 4 * i)).
Proof.
  induction n as [|k IH]; intros s Hd Hend Hlim Hs Hslim Hdisj.
  - exists s. cbn [while_ copy_cond].
    replace (dst s <? _data_end ld) with false
      by (symmetry; apply Z.ltb_ge; lia).
    split; [reflexivity|]. split; [lia|].
    split; [reflexivity|]. intros i Hi. lia.
  - cbn [while_ copy_cond].
    replace (dst s <? _data_end ld) with true
      by (symmetry; apply Z.ltb_lt; lia).
    assert (Hd1 : dst (copy_body s) = dst s + 4)
      by (cbn [copy_body dst]; unfold ptr_inc; apply wrap32_small; lia).
    assert (Hs1 : src (copy_body s) = src s + 4)
      by (cbn [copy_body src]; unfold ptr_inc; apply wrap32_small; lia).
    assert (Hr1 : ram (copy_body s) = <[dst s := ram s (src s)]> (ram s))
      by reflexivity.
    destruct (IH (copy_body s)) as (s' & Hrun & Hdst & Hframe & Hcopy);
      [rewrite ?Hd1, ?Hs1; lia ..|].
    rewrite Hd1, Hr1 in Hframe. rewrite Hd1, Hs1, Hr1 in Hcopy.
    exists s'. split; [exact Hrun|]. split; [exact Hdst|].
    split.
    + intros a Ha. rewrite Hframe by lia.
      apply fn_lookup_insert_ne. lia.
    + intros i Hi. destruct (Z.eq_dec i 0) as [-> | Hne].
      * replace (dst s + 4 * 0) with (dst s) by lia.
        replace (src s + 4 * 0) with (src s) by lia.
        rewrite Hframe by lia. apply fn_lookup_insert.
      * replace (dst s + 4 * i) with (dst s + 4 + 4 * (i - 1)) by lia.
        rewrite Hcopy by lia.
        replace (src s + 4 + 4 * (i - 1)) with (src s + 4 * i) by lia.
        apply fn_lookup_insert_ne. lia.
Qed.

(** The zero-fill loop started [n] words before [_bss_end]: it leaves
    after [n] iterations having cleared exactly the cells
    [dst, dst + 4, ..] below [_bss_end]. *)
Lemma zero_loop_run (ld : symbols) (n : nat) :
  forall s : state,
  0 <= dst s -> dst s + 4 * Z.of_nat n = _bss_end ld ->
  _bss_end ld < 2 ^ 32 ->
  exists s',
    while_ (S n) (zero_cond ld) zero_body s = Some s' /\
    dst s' = _bss_end ld /\ src s' = src s /\
    (forall a, a < dst s \/ _bss_end ld <= a \/ (a - dst s) mod 4 <> 0 ->
       ram s' a = ram s a) /\
    (forall i, 0 <= i < Z.of_nat n -> ram s' (dst s + 4 * i) = 0).
Proof.
  induction n as [|k IH]; intros s Hd Hend Hlim.
  - exists s. cbn [while_ zero_cond].
    replace (dst s <? _bss_end ld) with false
      by (symmetry; apply Z.ltb_ge; lia).
    split; [reflexivity|]. split; [lia|]. split; [reflexivity|].
    split; [reflexivity|]. intros i Hi. lia.
  - cbn [while_ zero_cond].
    replace (dst s <? _bss_end ld) with true
      by (symmetry; apply Z.ltb_lt; lia).
    assert (Hd1 : dst (zero_body s) = dst s + 4)
      by (cbn [zero_body dst]; unfold ptr_inc; apply wrap32_small; lia).
    assert (Hr1 : ram (zero_body s) = <[dst s := 0]> (ram s)) by reflexivity.
    destruct (IH (zero_body s)) as (s' & Hrun & Hdst & Hsrc & Hframe & Hzero);
      [rewrite ?Hd1; lia ..|].
    rewrite Hd1, Hr1 in Hframe. rewrite Hd1 in Hzero.
    cbn [zero_body src] in Hsrc.
    exists s'. split; [exact Hrun|]. split; [exact Hdst|].
    split; [exact Hsrc|]. split.
    + intros a Ha.
      assert (Hne : dst s <> a).
      { intros <-. destruct Ha as [Ha|[Ha|Ha]]; [lia | lia |].
        apply Ha. rewrite Z.sub_diag. reflexivity. }
      rewrite Hframe.
      * apply fn_lookup_insert_ne. exact Hne.
      * destruct Ha as [Ha|[Ha|Ha]]; [left; lia | right; left; lia |].
        right; right. intros Hm. apply Ha.
        replace (a - dst s) with ((a - (dst s + 4)) + 1 * 4) by lia.
        rewrite Z.mod_add by lia. exact Hm.
    + intros i Hi. destruct (Z.eq_dec i 0) as [-> | Hne].
      * replace (dst s + 4 * 0) with (dst s) by lia.
        rewrite Hframe by lia. apply fn_lookup_insert.
      * replace (dst s + 4 * i) with (dst s + 4 + 4 * (i - 1)) by lia.
        apply Hzero. lia.
Qed.

Lemma aligned_span (lo hi : Z) :
  word_aligned lo -> word_aligned hi -> lo <= hi ->
  lo + 4 * Z.of_nat (words lo hi) = hi.
Proof.
  unfold word_aligned, words. intros Hlo Hhi Hle.
  rewrite Z2Nat.id by (apply Z.div_pos; lia).
  pose proof (Z.div_mod lo 4). pose proof (Z.div_mod hi 4).
  pose proof (Z.div_mod (hi - lo) 4).
  pose proof (Z.mod_pos_bound (hi - lo) 4).
  assert (Hm : (hi - lo) mod 4 = 0).
  { replace (hi - lo) with (0 + (hi / 4 - lo / 4) * 4) by lia.
    rewrite Z.mod_add by lia. reflexivity. }
  lia.
Qed.

(** The copy loop as a whole: it runs one iteration per word of the
    region, changes nothing outside it, and fills it from the flash
    image. *)
Lemma copy_data_run (ld : symbols) (m : mem) :
  word_aligned (_data_start ld) -> word_aligned (_data_end ld) ->
  0 <= _data_start ld -> _data_end ld < 2 ^ 32 ->
  0 <= _data_flash ld ->
  _data_flash ld + (_data_end ld - _data_start ld) < 2 ^ 32 ->
  (_data_flash ld + (_data_end ld - _data_start ld) <= _data_start ld
   \/ _data_end ld <= _data_flash ld) ->
  exists s',
    copy_data ld (S (words (_data_start ld) (_data_end ld))) m = Some s' /\
    (forall a, a < _data_start ld \/ _data_end ld <= a -> ram s' a = m a) /\
    (forall w, 0 <= w -> _data_start ld + 4 * w < _data_end ld ->
       ram s' (_data_start ld + 4 * w) = m (_data_flash ld + 4 * w)).
Proof.
  intros Has Hae Hs He Hf Hflim Hdisj.
  destruct (Z_le_gt_dec (_data_start ld) (_data_end ld)) as [Hle|Hgt].
  - pose proof (aligned_span _ _ Has Hae Hle) as Hn.
    destruct (copy_loop_run ld (words (_data_start ld) (_data_end ld))
                {| src := _data_flash ld; dst := _data_start ld; ram := m |})
      as (s' & Hrun & _ & Hframe & Hcopy); cbn [src dst ram]; try lia.
    cbn [src dst ram] in Hframe, Hcopy.
    exists s'. split; [exact Hrun|]. split; [exact Hframe|].
    intros w Hw Hin. apply Hcopy. lia.
  - exists {| src := _data_flash ld; dst := _data_start ld; ram := m |}.
    split; [|split].
    + unfold copy_data. cbn [while_ copy_cond dst].
      replace (_data_start ld <? _data_end ld) with false
        by (symmetry; apply Z.ltb_ge; lia).
      reflexivity.
    + reflexivity.
    + intros w Hw Hin. lia.
Qed.

(** The zero-fill loop as a whole. *)
Lemma zero_bss_run (ld : symbols) (s : state) :
  word_aligned (_bss_start ld) -> word_aligned (_bss_end ld) ->
  0 <= _bss_start ld -> _bss_end ld < 2 ^ 32 ->
  exists s',
    zero_bss ld (S (words (_bss_start ld) (_bss_end ld))) s = Some s' /\
    src s' = src s /\
    dst s' = Z.max (_bss_start ld) (_bss_end ld) /\
    (forall a, a < _bss_start ld \/ _bss_end ld <= a
               \/ (a - _bss_start ld) mod 4 <> 0 ->
       ram s' a = ram s a) /\
    (forall w, 0 <= w -> _bss_start ld + 4 * w < _bss_end ld ->
       ram s' (_bss_start ld + 4 * w) = 0).
Proof.
  intros Has Hae Hs He.
  destruct (Z_le_gt_dec (_bss_start ld) (_bss_end ld)) as [Hle|Hgt].
  - pose proof (aligned_span _ _ Has Hae Hle) as Hn.
    destruct (zero_loop_run ld (words (_bss_start ld) (_bss_end ld))
                {| src := src s; dst := _bss_start ld; ram := ram s |})
      as (s' & Hrun & Hdst & Hsrc & Hframe & Hzero); cbn [src dst ram]; try lia.
    cbn [src dst ram] in Hsrc, Hframe, Hzero.
    exists s'. split; [exact Hrun|]. split; [exact Hsrc|].
    split; [lia|]. split; [exact Hframe|].
    intros w Hw Hin. apply Hzero. lia.
  - exists {| src := src s; dst := _bss_start ld; ram := ram s |}.
    split; [|split; [|split; [|split]]].
    + unfold zero_bss. cbn [while_ zero_cond dst].
      replace (_bss_start ld <? _bss_end ld) with false
        by (symmetry; apply Z.ltb_ge; lia).
      reflexivity.
    + reflexivity.
    + cbn [dst]. lia.
    + reflexivity.
    + intros w Hw Hin. lia.
Qed.

(** Both steps in order, for regions that do not overlap: [main] is
    entered with the initialized data in place and the [.bss] clear. *)
Lemma Reset_Handler_prepare_ok (ld : symbols) (m : mem) :
  word_aligned (_data_start ld) -> word_aligned (_data_end ld) ->
  word_aligned (_bss_start ld) -> word_aligned (_bss_end ld) ->
  0 <= _data_start ld -> _data_end ld < 2 ^ 32 ->
  0 <= _bss_start ld -> _bss_end ld < 2 ^ 32 ->
  0 <= _data_flash ld ->
  _data_flash ld + (_data_end ld - _data_start ld) < 2 ^ 32 ->
  (_data_flash ld + (_data_end ld - _data_start ld) <= _data_start ld
   \/ _data_end ld <= _data_flash ld) ->
  (_data_end ld <= _bss_start ld \/ _bss_end ld <= _data_start ld) ->
  exists fuel s,
    Reset_Handler_prepare ld fuel m = Some s /\
    (forall w, 0 <= w -> _data_start ld + 4 * w < _data_end ld ->
       ram s (_data_start ld + 4 * w) = m (_data_flash ld + 4 * w)) /\
    (forall w, 0 <= w -> _bss_start ld + 4 * w < _bss_end ld ->
       ram s (_bss_start ld + 4 * w) = 0).
Proof.
  intros Hds Hde Hbs Hbe H1 H2 H3 H4 H5 H6 Hdisj Hsep.
  destruct (copy_data_run ld m Hds Hde H1 H2 H5 H6 Hdisj)
    as (s1 & Hrun1 & _ & Hcopy).
  destruct (zero_bss_run ld s1 Hbs Hbe H3 H4)
    as (s2 & Hrun2 & _ & _ & Hframe & Hzero).
  exists (S (words (_data_start ld) (_data_end ld)
             + words (_bss_start ld) (_bss_end ld))), s2.
  split; [|split; [|exact Hzero]].
  - unfold Reset_Handler_prepare.
    unfold copy_data in *. unfold zero_bss in *.
    rewrite (while_fuel_mono _ _ _ _ _ _ Hrun1) by lia.
    apply (while_fuel_mono _ _ _ _ _ _ Hrun2). lia.
  - intros w Hw Hin. rewrite Hframe by lia. apply Hcopy; assumption.
Qed.

(** C2. After the copy loop of the Reset Sequencer, every word of the
    initialized-data region [_data_start .. _data_end) equals the word at
    the same offset from [_data_flash]; the flash image itself is
    unchanged.  The symbols are word-aligned 32-bit addresses and the
    flash image lies outside the region being written. *)
Theorem copy_data_fidelity (ld : symbols) (m : mem) :
  word_aligned (_data_start ld) -> word_aligned (_data_end ld) ->
  0 <= _data_start ld -> _data_end ld < 2 ^ 32 ->
  0 <= _data_flash ld ->
  _data_flash ld + (_data_end ld - _data_start ld) < 2 ^ 32 ->
  (_data_flash ld + (_data_end ld - _data_start ld) <= _data_start ld
   \/ _data_end ld <= _data_flash ld) ->
  exists fuel s',
    copy_data ld fuel m = Some s' /\
    forall w, 0 <= w -> _data_start ld + 4 * w < _data_end ld ->
      ram s' (_data_start ld + 4 * w) = ram s' (_data_flash ld + 4 * w) /\
      ram s' (_data_flash ld + 4 * w) = m (_data_flash ld + 4 * w).
Proof.
  intros Has Hae Hs He Hf Hflim Hdisj.
  destruct (copy_data_run ld m Has Hae Hs He Hf Hflim Hdisj)
    as (s' & Hrun & Hframe & Hcopy).
  exists (S (words (_data_start ld) (_data_end ld))), s'.
  split; [exact Hrun|].
  intros w Hw Hin.
  assert (Hsrc : ram s' (_data_flash ld + 4 * w) = m (_data_flash ld + 4 * w))
    by (apply Hframe; lia).
  split; [|exact Hsrc].
  rewrite Hsrc. apply Hcopy; assumption.
Qed.

(** C3. After the zero-fill loop of the Reset Sequencer every word of
    [_bss_start .. _bss_end) is zero, whatever memory held before; and
    running the zero-fill a second time gives the same state again. *)
Theorem zero_bss_clears_idempotent (ld : symbols) (s : state) :
  word_aligned (_bss_start ld) -> word_aligned (_bss_end ld) ->
  0 <= _bss_start ld -> _bss_end ld < 2 ^ 32 ->
  exists fuel s1,
    zero_bss ld fuel s = Some s1 /\
    (forall w, 0 <= w -> _bss_start ld + 4 * w < _bss_end ld ->
       ram s1 (_bss_start ld + 4 * w) = 0) /\
    exists s2,
      zero_bss ld fuel s1 = Some s2 /\
      src s2 = src s1 /\ dst s2 = dst s1 /\
      forall a, ram s2 a = ram s1 a.
Proof.
  intros Has Hae Hs He.
  destruct (zero_bss_run ld s Has Hae Hs He)
    as (s1 & Hrun1 & _ & Hdst1 & _ & Hzero1).
  destruct (zero_bss_run ld s1 Has Hae Hs He)
    as (s2 & Hrun2 & Hsrc2 & Hdst2 & Hframe2 & Hzero2).
  exists (S (words (_bss_start ld) (_bss_end ld))), s1.
  split; [exact Hrun1|]. split; [exact Hzero1|].
  exists s2. split; [exact Hrun2|]. split; [exact Hsrc2|].
  split; [congruence|].
  intros a.
  destruct (Z_lt_dec a (_bss_start ld)) as [Hlo|Hlo];
    [apply Hframe2; lia|].
  destruct (Z_le_dec (_bss_end ld) a) as [Hhi|Hhi];
    [apply Hframe2; lia|].
  destruct (Z.eq_dec ((a - _bss_start ld) mod 4) 0) as [Hal|Hal];
    [|apply Hframe2; right; right; exact Hal].
  pose proof (Z.div_mod (a - _bss_start ld) 4) as Hdm.
  replace a with (_bss_start ld + 4 * ((a - _bss_start ld) / 4)) by lia.
  assert (0 <= (a - _bss_start ld) / 4) by (apply Z.div_pos; lia).
  rewrite Hzero1, Hzero2 by lia. reflexivity.
Qed.

Lemma copy_data_fidelity_witness :
  exists fuel s',
    copy_data demo_symbols fuel (fun a => a) = Some s' /\
    forall w, 0 <= w ->
      _data_start demo_symbols + 4 * w < _data_end demo_symbols ->
      ram s' (_data_start demo_symbols + 4 * w)
      = ram s' (_data_flash demo_symbols + 4 * w) /\
      ram s' (_data_flash demo_symbols + 4 * w)
      = _data_flash demo_symbols + 4 * w.
Proof.
  apply (copy_data_fidelity demo_symbols (fun a => a));
    try reflexivity; cbn; lia.
Defined.

Lemma zero_bss_clears_idempotent_witness :
  exists fuel s1,
    zero_bss demo_symbols fuel {| src := 0; dst := 0; ram := fun a => a |}
    = Some s1 /\
    (forall w, 0 <= w ->
       _bss_start demo_symbols + 4 * w < _bss_end demo_symbols ->
       ram s1 (_bss_start demo_symbols + 4 * w) = 0) /\
    exists s2,
      zero_bss demo_symbols fuel s1 = Some s2 /\
      src s2 = src s1 /\ dst s2 = dst s1 /\
      forall a, ram s2 a = ram s1 a.
Proof.
  apply (zero_bss_clears_idempotent demo_symbols
           {| src := 0; dst := 0; ram := fun a => a |});
    try reflexivity; cbn; lia.
Defined.

End StartupProofs.

(** ** The vector table *)

Section VectorsProofs.
Import Vectors.

Lemma vector_table_length (img : image) : length (vector_table img) = 42%nat.
Proof. reflexivity. Qed.

(** Slot 0 is the initial stack pointer, slot 1 the reset entry point. *)
Lemma vector_table_head (img : image) :
  vector_table img !! 0%nat = Some (_stack_top img) /\
  vector_table img !! 1%nat = Some (Reset_Handler_addr img).
Proof. split; reflexivity. Qed.

Lemma vector_table_lookup (img : image) (k : nat) :
  vector_table img !! k = link img <$> (vector_table_init !! k).
Proof. unfold vector_table. apply list_lookup_fmap. Qed.

(** Every slot that names a handler names the one of the exception
    assigned to that slot number. *)
Lemma vector_table_order (k : nat) (h : handler) :
  vector_table_init !! k = Some (Weak h) ->
  assigned k = Some (handler_exception h).
Proof.
  intros H.
  do 42 (destruct k as [|k];
         [cbn in H; first [discriminate H | injection H as <-; reflexivity]|]).
  discriminate H.
Qed.

(** Every slot whose number is reserved on the core holds zero. *)
Lemma vector_table_reserved (k : nat) :
  (1 <= k < 42)%nat -> assigned k = None ->
  vector_table_init !! k = Some Zero.
Proof.
  intros Hk H.
  do 42 (destruct k as [|k];
         [first [lia | discriminate H | reflexivity]|]).
  lia.
Qed.

(** C4. Where the table departs from the claim: slots 22, 30, 31, 32 and
    33 are the slots of the interrupt lines IRQ6 (XIP), IRQ14 (QSPI), IRQ15
    and IRQ16 (SIO) and IRQ17 (clocks), which exist on this chip, yet in
    every image they hold the zero placeholder and no handler address. *)
Theorem vector_table_named_irq_slots_zero (img : image) :
  (assigned 22 = Some (IRQ 6) /\ vector_table img !! 22%nat = Some 0) /\
  (assigned 30 = Some (IRQ 14) /\ vector_table img !! 30%nat = Some 0) /\
  (assigned 31 = Some (IRQ 15) /\ vector_table img !! 31%nat = Some 0) /\
  (assigned 32 = Some (IRQ 16) /\ vector_table img !! 32%nat = Some 0) /\
  (assigned 33 = Some (IRQ 17) /\ vector_table img !! 33%nat = Some 0).
Proof.
  repeat split; reflexivity.
Qed.

(** C6. A slot that names a handler the application leaves without a
    definition of its own holds the address of [Default_Handler], so
    taking that exception branches to the fallback; and [Default_Handler]
    never returns, however long it runs. *)
Theorem unbound_handler_hangs (img : image) (k : nat) (h : handler) :
  vector_table_init !! k = Some (Weak h) ->
  strong img h = None ->
  resolve img h = Fallback /\
  exception_target img k = Some (Default_Handler_addr img) /\
  forall fuel, Default_Handler fuel = None.
Proof.
  intros Hk Hs.
  assert (Hr : resolve img h = Fallback) by (unfold resolve; rewrite Hs; reflexivity).
  split; [exact Hr|]. split.
  - unfold exception_target. rewrite vector_table_lookup, Hk.
    cbn. rewrite Hr. reflexivity.
  - intros fuel. apply forever_diverges.
Qed.

Lemma unbound_handler_hangs_witness :
  resolve blink_image NMI_Handler = Fallback /\
  exception_target blink_image 2 = Some (Default_Handler_addr blink_image) /\
  forall fuel, Default_Handler fuel = None.
Proof.
  apply (unbound_handler_hangs blink_image 2 NMI_Handler); reflexivity.
Defined.

End VectorsProofs.

(** ** Register writes *)

Section MainProofs.
Import Main.

Lemma store_out_xor (v : Z) (r : Z -> Z) :
  store GPIO_OUT_XOR v r = <[GPIO_OUT := Z.lxor (r GPIO_OUT) v]> r.
Proof. reflexivity. Qed.

Lemma store_oe_set (v : Z) (r : Z -> Z) :
  store GPIO_OE_SET v r = <[GPIO_OE := Z.lor (r GPIO_OE) v]> r.
Proof. reflexivity. Qed.

Lemma store_reset_clr (v : Z) (r : Z -> Z) :
  store RESETS_RESET_CLR v r
  = <[RESETS_RESET := Z.ldiff (r RESETS_RESET) v]> r.
Proof. reflexivity. Qed.

Lemma store_plain (a v : Z) (r : Z -> Z) :
  a <> RESETS_RESET_CLR -> a <> GPIO_OUT_XOR -> a <> GPIO_OE_SET ->
  a <> SYST_CVR ->
  store a v r = <[a := v]> r.
Proof.
  intros H1 H2 H3 H4. unfold store.
  apply Z.eqb_neq in H1, H2, H3, H4. rewrite H1, H2, H3, H4. reflexivity.
Qed.

(** C8. Writing the same mask twice to the toggle alias restores every
    register, the output level included, to what it was before the first
    write: the toggle is its own inverse. *)
Theorem toggle_twice_restores (m : machine) (mask : Z) :
  forall a,
    regs (write32 GPIO_OUT_XOR mask (write32 GPIO_OUT_XOR mask m)) a
    = regs m a.
Proof.
  intros a. cbn [write32 regs]. rewrite !store_out_xor.
  destruct (Z.eq_dec GPIO_OUT a) as [<- | Hne].
  - rewrite !fn_lookup_insert.
    rewrite Z.lxor_assoc, Z.lxor_nilpotent, Z.lxor_0_r. reflexivity.
  - rewrite !fn_lookup_insert_ne by exact Hne. reflexivity.
Qed.

(** ** The timer set-up *)

(** C7, as the code has it.  [systick_init] writes the fixed reload value
    [6000 - 1 = 5999], which is what a 6,000,000 Hz clock and a 1,000 Hz
    tick rate give; it then clears the current count, and only then sets
    the clock-source, interrupt and enable bits. *)
Theorem systick_init_sequence (m : machine) :
  trace (systick_init m)
  = trace m ++ [Write32 SYST_RVR 5999; Write32 SYST_CVR 0; Write32 SYST_CSR 7]
  /\ reload_for 6000000 1000 = 5999
  /\ regs (systick_init m) SYST_RVR = 5999
  /\ regs (systick_init m) SYST_CVR = 0
  /\ regs (systick_init m) SYST_CSR = 7
  /\ (forall i, Z.testbit 7 i = true <-> i = 0 \/ i = 1 \/ i = 2).
Proof.
  split; [|split; [|split; [|split; [|split]]]].
  - unfold systick_init. cbn [write32 trace].
    rewrite <- !app_assoc. reflexivity.
  - reflexivity.
  - reflexivity.
  - reflexivity.
  - reflexivity.
  - intros i. split.
    + intros H. destruct (Z_lt_dec i 0) as [Hn|Hn].
      { rewrite Z.testbit_neg_r in H by lia. discriminate. }
      destruct (Z_le_dec 3 i) as [Hb|Hb]; [|lia].
      replace 7 with (Z.ones 3) in H by reflexivity.
      rewrite Z.ones_spec_high in H by lia. discriminate.
    + intros [-> | [-> | ->]]; reflexivity.
Qed.

(** C7, as the specification words it, fails: the reload value does not
    follow the clock.  At 12,000,000 Hz and 1,000 Hz the divisor rule asks
    for 11999; [systick_init] has no clock input and programs 5999. *)
Lemma systick_reload_not_injectable :
  reload_for 12000000 1000 = 11999 /\
  regs (systick_init (power_on (fun _ => 0))) SYST_RVR = 5999 /\
  regs (systick_init (power_on (fun _ => 0))) SYST_RVR
  <> reload_for 12000000 1000.
Proof.
  split; [reflexivity|]. split; [reflexivity|]. discriminate.
Qed.

(** ** The SysTick handler *)

Lemma toggles_app (a b : list event) :
  toggles (a ++ b) = (toggles a + toggles b)%nat.
Proof. unfold toggles. rewrite List.filter_app, length_app. reflexivity. Qed.

Lemma toggles_cons (e : event) (l : list event) :
  toggles (e :: l) = ((if is_toggle e then 1 else 0) + toggles l)%nat.
Proof.
  unfold toggles. cbn [List.filter]. destruct (is_toggle e); reflexivity.
Qed.

Lemma since_app (m m' : machine) (l : list event) :
  trace m' = trace m ++ l -> since m m' = l.
Proof. intros H. unfold since. rewrite H. apply drop_app_length. Qed.

(** One run of the handler: the counter goes up by one modulo 2^32, and
    the toggle is written exactly when the new count is a multiple of 500. *)
Lemma SysTick_Handler_step (m : machine) :
  tick_count (SysTick_Handler m) = wrap32 (tick_count m + 1) /\
  trace (SysTick_Handler m)
  = trace m ++ (if wrap32 (tick_count m + 1) mod 500 =? 0
                then [Write32 GPIO_OUT_XOR LED_MASK] else []).
Proof.
  unfold SysTick_Handler. cbn [set_tick_count tick_count].
  destruct (wrap32 (tick_count m + 1) mod 500 =? 0).
  - split; reflexivity.
  - split; [reflexivity|]. cbn [set_tick_count trace].
    rewrite app_nil_r. reflexivity.
Qed.

Lemma div500_succ (c : Z) :
  0 <= c ->
  (c + 1) / 500 = c / 500 + (if (c + 1) mod 500 =? 0 then 1 else 0).
Proof.
  intros Hc. destruct (Z.eqb_spec ((c + 1) mod 500) 0) as [H|H];
    Z.div_mod_to_equations; lia.
Qed.

Lemma fire_S (n : nat) (m : machine) :
  fire (S n) m = SysTick_Handler (fire n m).
Proof. reflexivity. Qed.

Lemma fire_1 (m : machine) : fire 1 m = SysTick_Handler m.
Proof. reflexivity. Qed.

(** [n] firings that do not wrap the counter: it advances by [n], and
    the toggles written are the multiples of 500 passed on the way. *)
Lemma fire_run (m : machine) (n : nat) :
  0 <= tick_count m -> tick_count m + Z.of_nat n < 2 ^ 32 ->
  tick_count (fire n m) = tick_count m + Z.of_nat n /\
  exists l,
    trace (fire n m) = trace m ++ l /\
    Z.of_nat (toggles l)
    = (tick_count m + Z.of_nat n) / 500 - tick_count m / 500.
Proof.
  intros H0. induction n as [|n IH]; intros Hlim.
  - cbn [fire]. split; [lia|]. exists []. split.
    + rewrite app_nil_r. reflexivity.
    + replace (tick_count m + Z.of_nat 0) with (tick_count m) by lia.
      change (Z.of_nat (toggles [])) with 0. lia.
  - destruct IH as (Hc & l & Ht & Hn); [lia|].
    cbn [fire]. destruct (SysTick_Handler_step (fire n m)) as (Hc' & Ht').
    rewrite Hc in Hc', Ht'.
    rewrite wrap32_small in Hc', Ht' by lia.
    split; [rewrite Hc'; lia|].
    eexists. split.
    + rewrite Ht', Ht, <- app_assoc. reflexivity.
    + rewrite toggles_app, Nat2Z.inj_add, Hn.
      replace (tick_count m + Z.of_nat (S n))
        with (tick_count m + Z.of_nat n + 1) by lia.
      rewrite (div500_succ (tick_count m + Z.of_nat n)) by lia.
      destruct ((tick_count m + Z.of_nat n + 1) mod 500 =? 0).
      * change (toggles [Write32 GPIO_OUT_XOR LED_MASK]) with 1%nat. lia.
      * change (toggles []) with 0%nat. lia.
Qed.

Lemma fire_toggles_from_zero (m : machine) (n : nat) :
  tick_count m = 0 -> Z.of_nat n < 2 ^ 32 ->
  tick_count (fire n m) = Z.of_nat n /\
  toggles (since m (fire n m)) = Z.to_nat (Z.of_nat n / 500).
Proof.
  intros H0 Hlim.
  destruct (fire_run m n) as (Hc & l & Ht & Hn); [lia | lia |].
  rewrite H0 in Hc, Hn. split; [lia|].
  rewrite (since_app _ _ _ Ht).
  replace (0 + Z.of_nat n) with (Z.of_nat n) in Hn by lia.
  change (0 / 500) with 0 in Hn. lia.
Qed.

(** The counter after [n] firings, for any [n]: the start value plus [n],
    modulo 2^32. *)
Lemma fire_tick_count (m : machine) (n : nat) :
  0 <= tick_count m < 2 ^ 32 ->
  tick_count (fire n m) = (tick_count m + Z.of_nat n) mod 2 ^ 32.
Proof.
  intros H0. induction n as [|n IH].
  - cbn [fire]. rewrite Z.add_0_r, Z.mod_small by exact H0. reflexivity.
  - rewrite fire_S. destruct (SysTick_Handler_step (fire n m)) as (Hc & _).
    rewrite Hc, IH. unfold wrap32.
    rewrite Z.add_mod_idemp_l by lia. f_equal. lia.
Qed.

(** The multiples of 500 met by a 32-bit counter that starts at 0 and is
    advanced [n] times: 8589935 in each full turn of 2^32 steps (the
    8589934 multiples from 500 to 4294967000, and the 0 reached by the
    wrap), and one for every 500 steps of the turn under way. *)
Lemma multiples_met_succ (n : Z) :
  0 <= n ->
  (n + 1) / 2 ^ 32 * 8589935 + ((n + 1) mod 2 ^ 32) / 500
  = n / 2 ^ 32 * 8589935 + (n mod 2 ^ 32) / 500
    + (if ((n + 1) mod 2 ^ 32) mod 500 =? 0 then 1 else 0).
Proof.
  intros Hn. change (2 ^ 32) with 4294967296.
  destruct (Z.eqb_spec (((n + 1) mod 4294967296) mod 500) 0) as [H|H];
    Z.div_mod_to_equations; lia.
Qed.

(** [n] firings from a counter of 0, for any [n], the wrap-around
    included. *)
Lemma fire_toggles_wrapping (m : machine) (n : nat) :
  tick_count m = 0 ->
  exists l,
    trace (fire n m) = trace m ++ l /\
    Z.of_nat (toggles l)
    = Z.of_nat n / 2 ^ 32 * 8589935 + (Z.of_nat n mod 2 ^ 32) / 500.
Proof.
  intros H0. induction n as [|n IH].
  - exists []. cbn [fire]. rewrite app_nil_r. split; reflexivity.
  - destruct IH as (l & Ht & Hn).
    rewrite fire_S.
    destruct (SysTick_Handler_step (fire n m)) as (_ & Ht').
    rewrite (fire_tick_count m n) in Ht' by (rewrite H0; lia).
    rewrite H0, Z.add_0_l in Ht'. unfold wrap32 in Ht'.
    rewrite Z.add_mod_idemp_l in Ht' by lia.
    eexists. split; [rewrite Ht', Ht, <- app_assoc; reflexivity|].
    rewrite toggles_app, Nat2Z.inj_add, Hn, Nat2Z.inj_succ.
    unfold Z.succ. rewrite (multiples_met_succ (Z.of_nat n)) by lia.
    destruct ((Z.of_nat n + 1) mod 2 ^ 32 mod 500 =? 0).
    + change (toggles [Write32 GPIO_OUT_XOR LED_MASK]) with 1%nat. lia.
    + change (toggles []) with 0%nat. lia.
Qed.

(** C1. Every firing of the handler, in any invocation sequence of any
    length, adds one to the 32-bit counter (modulo 2^32) and then writes
    the LED toggle exactly when the new count is a multiple of 500.
    Starting from a counter of 0, the counter after [n] firings is
    [n mod 2^32] and the pin has toggled 8589935 times for each full
    2^32 firings plus once for every 500 of the rest; so below 2^32
    firings it has toggled [n / 500] times: not at all in 499 firings,
    once in 500, once in 999, twice in 1000. *)
Theorem systick_toggles_on_multiples (m : machine) :
  tick_count m = 0 ->
  (forall n : nat,
     tick_count (fire n m) = Z.of_nat n mod 2 ^ 32 /\
     tick_count (fire (S n) m) = wrap32 (tick_count (fire n m) + 1) /\
     since (fire n m) (fire (S n) m)
     = if tick_count (fire (S n) m) mod 500 =? 0
       then [Write32 GPIO_OUT_XOR LED_MASK] else []) /\
  (forall n : nat,
     Z.of_nat (toggles (since m (fire n m)))
     = Z.of_nat n / 2 ^ 32 * 8589935 + (Z.of_nat n mod 2 ^ 32) / 500) /\
  (forall n : nat, Z.of_nat n < 2 ^ 32 ->
     tick_count (fire n m) = Z.of_nat n /\
     (Z.of_nat n + 1 < 2 ^ 32 ->
      tick_count (fire (S n) m) = tick_count (fire n m) + 1) /\
     toggles (since m (fire n m)) = Z.to_nat (Z.of_nat n / 500)) /\
  toggles (since m (fire 499 m)) = 0%nat /\
  toggles (since m (fire 500 m)) = 1%nat /\
  toggles (since m (fire 999 m)) = 1%nat /\
  toggles (since m (fire 1000 m)) = 2%nat.
Proof.
  intros H0.
  assert (Hgen : forall n : nat, Z.of_nat n < 2 ^ 32 ->
            toggles (since m (fire n m)) = Z.to_nat (Z.of_nat n / 500))
    by (intros n Hn; apply (fire_toggles_from_zero m n H0 Hn)).
  assert (Hstep : forall n : nat,
            tick_count (fire (S n) m) = wrap32 (tick_count (fire n m) + 1) /\
            since (fire n m) (fire (S n) m)
            = if tick_count (fire (S n) m) mod 500 =? 0
              then [Write32 GPIO_OUT_XOR LED_MASK] else []).
  { intros n. rewrite fire_S.
    destruct (SysTick_Handler_step (fire n m)) as (Hc & Ht).
    split; [exact Hc|]. rewrite Hc. apply since_app. exact Ht. }
  split; [|split; [|split]].
  - intros n. split; [|apply Hstep].
    rewrite (fire_tick_count m n) by (rewrite H0; lia).
    rewrite H0, Z.add_0_l. reflexivity.
  - intros n. destruct (fire_toggles_wrapping m n H0) as (l & Ht & Hn).
    rewrite (since_app _ _ _ Ht). exact Hn.
  - intros n Hn.
    destruct (fire_toggles_from_zero m n H0 Hn) as (Hc & _).
    split; [exact Hc|]. split; [|apply Hgen; exact Hn].
    intros Hn1. destruct (Hstep n) as (Hs & _).
    rewrite Hs, Hc. rewrite wrap32_small by lia. reflexivity.
  - repeat split; rewrite Hgen by (cbn; lia); reflexivity.
Qed.

Lemma systick_toggles_on_multiples_witness :
  (forall n : nat,
     tick_count (fire n (power_on (fun _ => 0))) = Z.of_nat n mod 2 ^ 32 /\
     tick_count (fire (S n) (power_on (fun _ => 0)))
     = wrap32 (tick_count (fire n (power_on (fun _ => 0))) + 1) /\
     since (fire n (power_on (fun _ => 0)))
           (fire (S n) (power_on (fun _ => 0)))
     = if tick_count (fire (S n) (power_on (fun _ => 0))) mod 500 =? 0
       then [Write32 GPIO_OUT_XOR LED_MASK] else []) /\
  (forall n : nat,
     Z.of_nat (toggles (since (power_on (fun _ => 0))
                          (fire n (power_on (fun _ => 0)))))
     = Z.of_nat n / 2 ^ 32 * 8589935 + (Z.of_nat n mod 2 ^ 32) / 500) /\
  (forall n : nat, Z.of_nat n < 2 ^ 32 ->
     tick_count (fire n (power_on (fun _ => 0))) = Z.of_nat n /\
     (Z.of_nat n + 1 < 2 ^ 32 ->
      tick_count (fire (S n) (power_on (fun _ => 0)))
      = tick_count (fire n (power_on (fun _ => 0))) + 1) /\
     toggles (since (power_on (fun _ => 0)) (fire n (power_on (fun _ => 0))))
     = Z.to_nat (Z.of_nat n / 500)) /\
  toggles (since (power_on (fun _ => 0)) (fire 499 (power_on (fun _ => 0))))
  = 0%nat /\
  toggles (since (power_on (fun _ => 0)) (fire 500 (power_on (fun _ => 0))))
  = 1%nat /\
  toggles (since (power_on (fun _ => 0)) (fire 999 (power_on (fun _ => 0))))
  = 1%nat /\
  toggles (since (power_on (fun _ => 0)) (fire 1000 (power_on (fun _ => 0))))
  = 2%nat.
Proof.
  apply (systick_toggles_on_multiples (power_on (fun _ => 0))). reflexivity.
Defined.

(** C9. The counter is 32 bits wide and [2^32 mod 500 = 296].  The firing
    that brings it to 4294967000 toggles the pin; the 295 firings after
    it do not; the next one wraps the counter from 4294967295 to 0 and
    toggles again, 296 firings after the previous toggle instead of 500. *)
Theorem tick_wrap_shortens_period (m : machine) :
  tick_count m = 4294966999 ->
  2 ^ 32 mod 500 = 296 /\
  tick_count (fire 1 m) = 4294967000 /\
  since m (fire 1 m) = [Write32 GPIO_OUT_XOR LED_MASK] /\
  (forall k : nat, (k <= 295)%nat ->
     tick_count (fire k (fire 1 m)) = 4294967000 + Z.of_nat k /\
     toggles (since (fire 1 m) (fire k (fire 1 m))) = 0%nat) /\
  tick_count (fire 295 (fire 1 m)) = 4294967295 /\
  tick_count (fire 296 (fire 1 m)) = 0 /\
  since (fire 295 (fire 1 m)) (fire 296 (fire 1 m))
  = [Write32 GPIO_OUT_XOR LED_MASK] /\
  toggles (since (fire 1 m) (fire 296 (fire 1 m))) = 1%nat.
Proof.
  intros H0.
  destruct (SysTick_Handler_step m) as (Hc1 & Ht1).
  rewrite H0 in Hc1, Ht1. rewrite (fire_1 m).
  set (m1 := SysTick_Handler m) in *.
  change (wrap32 (4294966999 + 1)) with 4294967000 in Hc1, Ht1.
  change (4294967000 mod 500 =? 0) with true in Ht1. cbn iota in Ht1.
  assert (Hrun : forall k : nat, (k <= 295)%nat ->
            tick_count (fire k m1) = 4294967000 + Z.of_nat k /\
            exists l, trace (fire k m1) = trace m1 ++ l /\ toggles l = 0%nat).
  { intros k Hk. destruct (fire_run m1 k) as (Hc & l & Ht & Hn);
      [lia | rewrite Hc1; lia |].
    rewrite Hc1 in Hc, Hn. split; [exact Hc|]. exists l. split; [exact Ht|].
    assert (Hq : (4294967000 + Z.of_nat k) / 500 = 8589934)
      by (Z.div_mod_to_equations; lia).
    rewrite Hq in Hn. change (4294967000 / 500) with 8589934 in Hn. lia. }
  destruct (Hrun 295%nat) as (Hc295 & l295 & Ht295 & Hn295); [lia|].
  destruct (SysTick_Handler_step (fire 295 m1)) as (Hc296 & Ht296).
  rewrite Hc295 in Hc296, Ht296.
  change (wrap32 (4294967000 + Z.of_nat 295 + 1)) with 0 in Hc296, Ht296.
  change (0 mod 500 =? 0) with true in Ht296. cbn iota in Ht296.
  rewrite (fire_S 295 m1).
  split; [reflexivity|]. split; [exact Hc1|].
  split; [apply since_app; exact Ht1|]. split.
  { intros k Hk. destruct (Hrun k Hk) as (Hc & l & Ht & Hn).
    split; [exact Hc|]. rewrite (since_app _ _ _ Ht). exact Hn. }
  split; [rewrite Hc295; reflexivity|]. split; [exact Hc296|].
  split; [apply since_app; exact Ht296|].
  rewrite (since_app m1 _ (l295 ++ [Write32 GPIO_OUT_XOR LED_MASK])).
  - rewrite toggles_app, Hn295. reflexivity.
  - rewrite Ht296, Ht295, <- app_assoc. reflexivity.
Qed.

Lemma tick_wrap_shortens_period_witness :
  tick_count (fire 295 (fire 1 (set_tick_count 4294966999
                                  (power_on (fun _ => 0))))) = 4294967295 /\
  tick_count (fire 296 (fire 1 (set_tick_count 4294966999
                                  (power_on (fun _ => 0))))) = 0 /\
  toggles (since (fire 1 (set_tick_count 4294966999 (power_on (fun _ => 0))))
             (fire 296 (fire 1 (set_tick_count 4294966999
                                  (power_on (fun _ => 0)))))) = 1%nat.
Proof.
  destruct (tick_wrap_shortens_period
              (set_tick_count 4294966999 (power_on (fun _ => 0))))
    as (_ & _ & _ & _ & H295 & H296 & _ & Ht); [reflexivity|].
  split; [exact H295|]. split; [exact H296 | exact Ht].
Defined.

(** ** Releasing the peripherals from reset *)

Lemma resets_cond_eq (s : machine) :
  resets_cond s
  = (negb (Z.land (reset_done s (polls s))
                  (Z.lor RESET_IO_BANK0 RESET_PADS_BANK0)
           =? Z.lor RESET_IO_BANK0 RESET_PADS_BANK0),
     {| tick_count := tick_count s;
        regs := regs s;
        reset_done := reset_done s;
        polls := S (polls s);
        trace := trace s
                 ++ [Read32 RESETS_RESET_DONE (reset_done s (polls s))] |}).
Proof. reflexivity. Qed.

(** As long as the status is not ready the loop is still polling. *)
Lemma poll_not_ready (fuel : nat) :
  forall s : machine,
  (forall i, (i < fuel)%nat -> ~ ready (reset_done s (polls s + i))) ->
  while_ fuel resets_cond (fun x => x) s = None.
Proof.
  induction fuel as [|f IH]; intros s Hnot; [reflexivity|].
  cbn [while_]. rewrite resets_cond_eq.
  destruct (Z.eqb_spec (Z.land (reset_done s (polls s))
                          (Z.lor RESET_IO_BANK0 RESET_PADS_BANK0))
                       (Z.lor RESET_IO_BANK0 RESET_PADS_BANK0)) as [Hr|Hr].
  - exfalso. apply (Hnot 0%nat); [lia|]. rewrite Nat.add_0_r. exact Hr.
  - cbn [negb]. apply IH. cbn [reset_done polls]. intros i Hi.
    replace (S (polls s) + i)%nat with (polls s + S i)%nat by lia.
    apply Hnot. lia.
Qed.

(** If the [n]-th poll is the first to find the status ready, the loop
    leaves right after it: [n + 1] reads and nothing else. *)
Lemma poll_until_ready (n : nat) :
  forall (s : machine) (fuel : nat),
  (forall i, (i < n)%nat -> ~ ready (reset_done s (polls s + i))) ->
  ready (reset_done s (polls s + n)) ->
  (n < fuel)%nat ->
  exists s',
    while_ fuel resets_cond (fun x => x) s = Some s' /\
    tick_count s' = tick_count s /\ regs s' = regs s /\
    reset_done s' = reset_done s /\ polls s' = (polls s + S n)%nat /\
    trace s' = trace s ++ status_reads (reset_done s) (polls s) (S n).
Proof.
  induction n as [|k IH]; intros s fuel Hnot Hready Hfuel;
    (destruct fuel as [|f]; [lia|]); cbn [while_]; rewrite resets_cond_eq.
  - rewrite Nat.add_0_r in Hready. unfold ready in Hready.
    rewrite Hready, Z.eqb_refl. cbn [negb].
    eexists. split; [reflexivity|]. cbn [tick_count regs reset_done polls trace].
    repeat split; lia.
  - destruct (Z.eqb_spec (Z.land (reset_done s (polls s))
                            (Z.lor RESET_IO_BANK0 RESET_PADS_BANK0))
                         (Z.lor RESET_IO_BANK0 RESET_PADS_BANK0)) as [Hr|Hr].
    { exfalso. apply (Hnot 0%nat); [lia|]. rewrite Nat.add_0_r. exact Hr. }
    cbn [negb].
    match goal with
    | |- context [while_ f resets_cond _ ?x] => set (s1 := x)
    end.
    destruct (IH s1 f) as (s' & Hrun & Htc & Hregs & Hdone & Hpolls & Htrace);
      subst s1; [| | | exists s'; split; [exact Hrun|]].
    + cbn [reset_done polls]. intros i Hi.
      replace (S (polls s) + i)%nat with (polls s + S i)%nat by lia.
      apply Hnot. lia.
    + cbn [reset_done polls].
      replace (S (polls s) + k)%nat with (polls s + S k)%nat by lia.
      exact Hready.
    + lia.
    + cbn [tick_count regs reset_done polls trace] in Htc, Hregs, Hdone,
        Hpolls, Htrace.
      repeat split; try assumption; [lia|].
      rewrite Htrace, <- app_assoc. reflexivity.
Qed.

(** A loop that has left found the status ready at some poll. *)
Lemma poll_returned (fuel : nat) :
  forall s s' : machine,
  while_ fuel resets_cond (fun x => x) s = Some s' ->
  exists n, (n < fuel)%nat /\
    (forall i, (i < n)%nat -> ~ ready (reset_done s (polls s + i))) /\
    ready (reset_done s (polls s + n)).
Proof.
  induction fuel as [|f IH]; intros s s' Hrun; [discriminate|].
  cbn [while_] in Hrun. rewrite resets_cond_eq in Hrun.
  destruct (Z.eqb_spec (Z.land (reset_done s (polls s))
                          (Z.lor RESET_IO_BANK0 RESET_PADS_BANK0))
                       (Z.lor RESET_IO_BANK0 RESET_PADS_BANK0)) as [Hr|Hr].
  - exists 0%nat. split; [lia|]. split; [intros i Hi; lia|].
    rewrite Nat.add_0_r. exact Hr.
  - cbn [negb] in Hrun. apply IH in Hrun as (n & Hn & Hnot & Hready).
    cbn [reset_done polls] in Hnot, Hready.
    exists (S n). split; [lia|]. split.
    + intros i Hi. destruct i as [|i].
      * rewrite Nat.add_0_r. exact Hr.
      * replace (polls s + S i)%nat with (S (polls s) + i)%nat by lia.
        apply Hnot. lia.
    + replace (polls s + S n)%nat with (S (polls s) + n)%nat by lia.
      exact Hready.
Qed.

Lemma resets_init_not_ready (m : machine) (fuel : nat) :
  (forall i, (i < fuel)%nat -> ~ ready (reset_done m (polls m + i))) ->
  resets_init fuel m = None.
Proof. intros Hnot. unfold resets_init. apply poll_not_ready. exact Hnot. Qed.

Lemma resets_init_returns (m : machine) (n fuel : nat) :
  (forall i, (i < n)%nat -> ~ ready (reset_done m (polls m + i))) ->
  ready (reset_done m (polls m + n)) ->
  (n < fuel)%nat ->
  exists m',
    resets_init fuel m = Some m' /\
    since m m'
    = Write32 RESETS_RESET_CLR (Z.lor RESET_IO_BANK0 RESET_PADS_BANK0)
      :: status_reads (reset_done m) (polls m) (S n) /\
    polls m' = (polls m + S n)%nat /\
    regs m' RESETS_RESET
    = Z.ldiff (regs m RESETS_RESET) (Z.lor RESET_IO_BANK0 RESET_PADS_BANK0).
Proof.
  intros Hnot Hready Hfuel. unfold resets_init.
  destruct (poll_until_ready n
              (write32 RESETS_RESET_CLR
                 (Z.lor RESET_IO_BANK0 RESET_PADS_BANK0) m) fuel)
    as (m' & Hrun & _ & Hregs & _ & Hpolls & Htrace);
    [exact Hnot | exact Hready | exact Hfuel |].
  exists m'. split; [exact Hrun|].
  cbn [write32 regs reset_done polls trace] in Hregs, Hpolls, Htrace.
  split; [|split; [exact Hpolls|]].
  - apply since_app. rewrite Htrace, <- app_assoc. reflexivity.
  - rewrite Hregs, store_reset_clr. apply fn_lookup_insert.
Qed.

(** C5, as the code has it.  [resets_init] takes no bitmask: its mask is
    always [RESET_IO_BANK0 | RESET_PADS_BANK0].  It has not returned as
    long as every poll so far found the status not ready; and if poll
    number [n] is the first to find it ready, the whole of its accesses
    is one write of the mask to the atomic-clear alias followed by
    exactly [n + 1] reads of the status register, after which it has
    returned, the two reset bits cleared. *)
Theorem resets_init_release (m : machine) :
  (forall fuel,
     (forall i, (i < fuel)%nat -> ~ ready (reset_done m (polls m + i))) ->
     resets_init fuel m = None) /\
  (forall n fuel,
     (forall i, (i < n)%nat -> ~ ready (reset_done m (polls m + i))) ->
     ready (reset_done m (polls m + n)) ->
     (n < fuel)%nat ->
     exists m',
       resets_init fuel m = Some m' /\
       since m m'
       = Write32 RESETS_RESET_CLR (Z.lor RESET_IO_BANK0 RESET_PADS_BANK0)
         :: status_reads (reset_done m) (polls m) (S n) /\
       polls m' = (polls m + S n)%nat /\
       regs m' RESETS_RESET
       = Z.ldiff (regs m RESETS_RESET)
                 (Z.lor RESET_IO_BANK0 RESET_PADS_BANK0)).
Proof.
  split.
  - apply resets_init_not_ready.
  - apply resets_init_returns.
Qed.

Lemma settles_after_not_ready (n i : nat) :
  (i < n)%nat -> ~ ready (settles_after n i).
Proof.
  intros Hi. unfold settles_after.
  destruct (Nat.ltb_spec i n) as [_|Hge]; [|lia].
  unfold ready. discriminate.
Qed.

Lemma settles_after_ready (n i : nat) :
  (n <= i)%nat -> ready (settles_after n i).
Proof.
  intros Hi. unfold settles_after.
  destruct (Nat.ltb_spec i n) as [Hlt|_]; [lia|].
  reflexivity.
Qed.

Lemma resets_init_release_witness :
  resets_init 2 (power_on (settles_after 2)) = None /\
  exists m',
    resets_init 3 (power_on (settles_after 2)) = Some m' /\
    since (power_on (settles_after 2)) m'
    = [Write32 RESETS_RESET_CLR 288;
       Read32 RESETS_RESET_DONE 0; Read32 RESETS_RESET_DONE 0;
       Read32 RESETS_RESET_DONE 288] /\
    polls m' = 3%nat /\
    regs m' RESETS_RESET = 0x01fffedf.
Proof.
  destruct (resets_init_release (power_on (settles_after 2)))
    as [Hnone Hsome].
  split.
  - apply Hnone. intros i Hi. apply settles_after_not_ready. exact Hi.
  - apply (Hsome 2%nat 3%nat).
    + intros i Hi. apply settles_after_not_ready. exact Hi.
    + apply settles_after_ready. cbn. lia.
    + lia.
Defined.

(** C5, as the claim words it, fails for a bitmask other than the one
    the code fixes.  Take the mask 1 (block 0 only).  With a status
    register that shows block 0 ready at once, and nothing else, the
    status covers the mask from the first poll on, yet [resets_init] never
    returns; and when it does run to completion, the value it wrote to the
    atomic-clear alias is 288 = 0x120, not 1. *)
Lemma resets_init_mask_is_fixed :
  Z.land (reset_done (power_on (fun _ => 1)) 0) 1 = 1 /\
  (forall fuel, resets_init fuel (power_on (fun _ => 1)) = None) /\
  (exists m',
     resets_init 1 (power_on (settles_after 0)) = Some m' /\
     hd_error (since (power_on (settles_after 0)) m')
     = Some (Write32 RESETS_RESET_CLR 288)) /\
  288 <> 1.
Proof.
  split; [reflexivity|]. split; [|split; [|discriminate]].
  - intros fuel.
    apply resets_init_not_ready.
    intros i _. cbn [power_on reset_done]. unfold ready. discriminate.
  - eexists. split; reflexivity.
Qed.

(** ** Pin set-up and the bring-up as a whole *)

Lemma status_reads_no_gpio_write (done : nat -> Z) (k : nat) :
  forall p, List.filter writes_gpio_out (status_reads done p k) = [].
Proof. induction k as [|k IH]; intros p; [reflexivity | apply IH]. Qed.

Lemma status_reads_no_toggle (done : nat -> Z) (k : nat) :
  forall p, toggles (status_reads done p k) = 0%nat.
Proof.
  induction k as [|k IH]; intros p; [reflexivity|].
  unfold toggles in *. cbn [status_reads List.filter is_toggle]. apply IH.
Qed.

(** What the three bring-up calls do, whenever they return. *)
Lemma main_init_returned (fuel : nat) (m m' : machine) :
  main_init fuel m = Some m' ->
  exists n,
    (forall i, (i < n)%nat -> ~ ready (reset_done m (polls m + i))) /\
    ready (reset_done m (polls m + n)) /\
    tick_count m' = tick_count m /\
    since m m'
    = Write32 RESETS_RESET_CLR (Z.lor RESET_IO_BANK0 RESET_PADS_BANK0)
      :: status_reads (reset_done m) (polls m) (S n)
      ++ [Write32 GPIO25_CTRL FUNCSEL_SIO;
          Write32 GPIO_OE_SET LED_MASK;
          Write32 GPIO_OUT_XOR LED_MASK;
          Write32 SYST_RVR 5999; Write32 SYST_CVR 0; Write32 SYST_CSR 7] /\
    regs m' GPIO_OUT = Z.lxor (regs m GPIO_OUT) LED_MASK.
Proof.
  unfold main_init. intros H.
  destruct (resets_init fuel m) as [m1|] eqn:Hr; [|discriminate].
  injection H as <-.
  unfold resets_init in Hr.
  destruct (poll_returned _ _ _ Hr) as (n & Hn & Hnot & Hready).
  destruct (poll_until_ready n _ fuel Hnot Hready Hn)
    as (m1' & Hr' & Htc & Hregs & _ & _ & Htrace).
  rewrite Hr in Hr'. injection Hr' as <-.
  cbn [write32 tick_count regs reset_done polls trace] in *.
  exists n. split; [exact Hnot|]. split; [exact Hready|].
  split; [exact Htc|]. split.
  - apply since_app. unfold systick_init, gpio_init.
    cbn [write32 trace]. rewrite Htrace, <- !app_assoc. reflexivity.
  - unfold systick_init, gpio_init. cbn [write32 regs]. rewrite Hregs.
    reflexivity.
Qed.

(** [main] ends in its idle loop: it never returns. *)
Lemma main_never_returns (fuel : nat) (m : machine) : main fuel m = None.
Proof.
  unfold main. destruct (main_init fuel m); [apply forever_diverges|reflexivity].
Qed.

(** C10. [gpio_init] writes the function selector, raises the output
    enable and then writes the toggle alias once; so when the bring-up
    returns, before any timer firing has been counted, the output level
    differs from the one at power-on by exactly the LED bit (from all
    zero, the LED bit is 1), and that write is the only one of the whole
    bring-up that touches the output level. *)
Theorem gpio_init_toggles_once (m : machine) :
  since m (gpio_init m)
  = [Write32 GPIO25_CTRL FUNCSEL_SIO;
     Write32 GPIO_OE_SET LED_MASK;
     Write32 GPIO_OUT_XOR LED_MASK] /\
  regs (gpio_init m) GPIO_OUT = Z.lxor (regs m GPIO_OUT) LED_MASK /\
  (forall n,
     (forall i, (i < n)%nat -> ~ ready (reset_done m (polls m + i))) ->
     ready (reset_done m (polls m + n)) ->
     exists m', main_init (S n) m = Some m') /\
  (forall fuel m',
     main_init fuel m = Some m' ->
     tick_count m' = tick_count m /\
     List.filter writes_gpio_out (since m m')
     = [Write32 GPIO_OUT_XOR LED_MASK] /\
     toggles (since m m') = 1%nat /\
     regs m' GPIO_OUT = Z.lxor (regs m GPIO_OUT) LED_MASK /\
     (regs m GPIO_OUT = 0 ->
      regs m' GPIO_OUT = LED_MASK /\
      Z.testbit (regs m' GPIO_OUT) LED_PIN = true)).
Proof.
  split; [|split; [|split]].
  - apply since_app. unfold gpio_init. cbn [write32 trace].
    rewrite <- !app_assoc. reflexivity.
  - reflexivity.
  - intros n Hnot Hready.
    destruct (resets_init_returns m n (S n) Hnot Hready)
      as (m1 & Hr & _); [lia|].
    unfold main_init. rewrite Hr. eexists. reflexivity.
  - intros fuel m' H.
    destruct (main_init_returned fuel m m' H)
      as (n & _ & _ & Htc & Hsince & Hout).
    split; [exact Htc|]. rewrite Hsince.
    split; [|split; [|split; [exact Hout|]]].
    + cbn [List.filter writes_gpio_out]. rewrite List.filter_app.
      change (status_reads (reset_done m) (polls m) (S n))
        with (Read32 RESETS_RESET_DONE (reset_done m (polls m))
              :: status_reads (reset_done m) (S (polls m)) n).
      cbn [List.filter writes_gpio_out].
      rewrite status_reads_no_gpio_write. reflexivity.
    + rewrite toggles_cons, toggles_app, status_reads_no_toggle. reflexivity.
    + intros H0. rewrite Hout, H0. split; reflexivity.
Qed.

Lemma gpio_init_toggles_once_witness :
  exists m',
    main_init 3 (power_on (settles_after 2)) = Some m' /\
    tick_count m' = 0 /\
    List.filter writes_gpio_out (since (power_on (settles_after 2)) m')
    = [Write32 GPIO_OUT_XOR LED_MASK] /\
    toggles (since (power_on (settles_after 2)) m') = 1%nat /\
    regs m' GPIO_OUT = LED_MASK /\
    Z.testbit (regs m' GPIO_OUT) LED_PIN = true.
Proof.
  destruct (gpio_init_toggles_once (power_on (settles_after 2)))
    as (_ & _ & Hret & Hspec).
  destruct (Hret 2%nat) as (m' & Hm').
  - intros i Hi. apply settles_after_not_ready. exact Hi.
  - apply settles_after_ready. cbn. lia.
  - exists m'. split; [exact Hm'|].
    destruct (Hspec _ _ Hm') as (Htc & Hf & Ht & _ & Hz).
    destruct (Hz eq_refl) as (Hl & Hb).
    repeat split; assumption.
Defined.

End MainProofs.

(** ** More on the Reset Sequencer *)

Section StartupMore.
Import Startup.

(** The copy loop writes inside [_data_start .. _data_end) only: every
    other cell, the stack and the flash image among them, is as it was. *)
Theorem copy_data_touches_only_data (ld : symbols) (m : mem) :
  word_aligned (_data_start ld) -> word_aligned (_data_end ld) ->
  0 <= _data_start ld -> _data_end ld < 2 ^ 32 ->
  0 <= _data_flash ld ->
  _data_flash ld + (_data_end ld - _data_start ld) < 2 ^ 32 ->
  (_data_flash ld + (_data_end ld - _data_start ld) <= _data_start ld
   \/ _data_end ld <= _data_flash ld) ->
  exists s',
    copy_data ld (S (words (_data_start ld) (_data_end ld))) m = Some s' /\
    forall a, a < _data_start ld \/ _data_end ld <= a -> ram s' a = m a.
Proof.
  intros Has Hae Hs He Hf Hflim Hdisj.
  destruct (copy_data_run ld m Has Hae Hs He Hf Hflim Hdisj)
    as (s' & Hrun & Hframe & _).
  exists s'. split; [exact Hrun | exact Hframe].
Qed.

Lemma copy_data_touches_only_data_witness :
  exists s',
    copy_data demo_symbols 5 (fun a => a) = Some s' /\
    forall a, a < 0x20000000 \/ 0x20000010 <= a -> ram s' a = a.
Proof.
  apply (copy_data_touches_only_data demo_symbols (fun a => a));
    try reflexivity; cbn; lia.
Defined.

(** The zero-fill writes inside [_bss_start .. _bss_end) only, leaves the
    [src] pointer alone and stops with [dst] at [_bss_end]. *)
Theorem zero_bss_touches_only_bss (ld : symbols) (s : state) :
  word_aligned (_bss_start ld) -> word_aligned (_bss_end ld) ->
  0 <= _bss_start ld -> _bss_end ld < 2 ^ 32 ->
  exists s',
    zero_bss ld (S (words (_bss_start ld) (_bss_end ld))) s = Some s' /\
    src s' = src s /\
    dst s' = Z.max (_bss_start ld) (_bss_end ld) /\
    forall a, a < _bss_start ld \/ _bss_end ld <= a -> ram s' a = ram s a.
Proof.
  intros Has Hae Hs He.
  destruct (zero_bss_run ld s Has Hae Hs He)
    as (s' & Hrun & Hsrc & Hdst & Hframe & _).
  exists s'. split; [exact Hrun|]. split; [exact Hsrc|]. split; [exact Hdst|].
  intros a Ha. apply Hframe. tauto.
Qed.

Lemma zero_bss_touches_only_bss_witness :
  exists s',
    zero_bss demo_symbols 5 {| src := 7; dst := 0; ram := fun a => a |}
    = Some s' /\
    src s' = 7 /\
    dst s' = 0x20000020 /\
    forall a, a < 0x20000010 \/ 0x20000020 <= a -> ram s' a = a.
Proof.
  apply (zero_bss_touches_only_bss demo_symbols
           {| src := 7; dst := 0; ram := fun a => a |});
    try reflexivity; cbn; lia.
Defined.

(** Empty or inverted regions: when neither end symbol lies above its
    start symbol, both loops leave at their first test and memory reaches
    [main] untouched, whatever the alignment of the symbols. *)
Theorem Reset_Handler_prepare_empty (ld : symbols) (fuel : nat) (m : mem) :
  _data_end ld <= _data_start ld -> _bss_end ld <= _bss_start ld ->
  Reset_Handler_prepare ld (S fuel) m
  = Some {| src := _data_flash ld; dst := _bss_start ld; ram := m |}.
Proof.
  intros Hd Hb. unfold Reset_Handler_prepare, copy_data, zero_bss.
  cbn [while_ copy_cond zero_cond dst src ram].
  replace (_data_start ld <? _data_end ld) with false
    by (symmetry; apply Z.ltb_ge; lia).
  cbn [while_ zero_cond dst src ram].
  replace (_bss_start ld <? _bss_end ld) with false
    by (symmetry; apply Z.ltb_ge; lia).
  reflexivity.
Qed.

Lemma Reset_Handler_prepare_empty_witness :
  Reset_Handler_prepare
    {| _data_start := 0x20000000; _data_end := 0x20000000;
       _data_flash := 0x10000400;
       _bss_start := 0x20000003; _bss_end := 0x20000001 |} 1 (fun a => a)
  = Some {| src := 0x10000400; dst := 0x20000003; ram := fun a => a |}.
Proof.
  apply (Reset_Handler_prepare_empty
           {| _data_start := 0x20000000; _data_end := 0x20000000;
              _data_flash := 0x10000400;
              _bss_start := 0x20000003; _bss_end := 0x20000001 |}
           0 (fun a => a)); cbn; lia.
Defined.

(** The two steps in order: when [.data] and [.bss] do not overlap, [main]
    is entered with every initialized word equal to its flash image and
    every [.bss] word zero; the zero-fill does not undo the copy. *)
Theorem Reset_Handler_prepares_memory (ld : symbols) (m : mem) :
  word_aligned (_data_start ld) -> word_aligned (_data_end ld) ->
  word_aligned (_bss_start ld) -> word_aligned (_bss_end ld) ->
  0 <= _data_start ld -> _data_end ld < 2 ^ 32 ->
  0 <= _bss_start ld -> _bss_end ld < 2 ^ 32 ->
  0 <= _data_flash ld ->
  _data_flash ld + (_data_end ld - _data_start ld) < 2 ^ 32 ->
  (_data_flash ld + (_data_end ld - _data_start ld) <= _data_start ld
   \/ _data_end ld <= _data_flash ld) ->
  (_data_end ld <= _bss_start ld \/ _bss_end ld <= _data_start ld) ->
  exists fuel s,
    Reset_Handler_prepare ld fuel m = Some s /\
    (forall w, 0 <= w -> _data_start ld + 4 * w < _data_end ld ->
       ram s (_data_start ld + 4 * w) = m (_data_flash ld + 4 * w)) /\
    (forall w, 0 <= w -> _bss_start ld + 4 * w < _bss_end ld ->
       ram s (_bss_start ld + 4 * w) = 0).
Proof. apply Reset_Handler_prepare_ok. Qed.

Lemma Reset_Handler_prepares_memory_witness :
  exists fuel s,
    Reset_Handler_prepare demo_symbols fuel (fun a => a) = Some s /\
    (forall w, 0 <= w -> 0x20000000 + 4 * w < 0x20000010 ->
       ram s (0x20000000 + 4 * w) = 0x10000400 + 4 * w) /\
    (forall w, 0 <= w -> 0x20000010 + 4 * w < 0x20000020 ->
       ram s (0x20000010 + 4 * w) = 0).
Proof.
  apply (Reset_Handler_prepares_memory demo_symbols (fun a => a));
    try reflexivity; cbn; lia.
Defined.

(** [Reset_Handler] never returns, whatever [main] does: a [main] that
    runs forever keeps control, and one that returns is caught by the
    trap loop. *)
Theorem Reset_Handler_never_returns {App : Type}
    (main : nat -> App -> option App) (ld : symbols) (fuel : nat)
    (m : mem) (a : App) :
  Reset_Handler main ld fuel m a = None.
Proof.
  unfold Reset_Handler.
  destruct (Reset_Handler_prepare ld fuel m) as [s|]; [|reflexivity].
  destruct (main fuel a) as [a'|]; [|reflexivity].
  apply forever_diverges.
Qed.

End StartupMore.

(** ** More on the vector table *)

Section VectorsMore.
Import Vectors.

Ltac slot_case :=
  split; [split; intros H; [discriminate H | exfalso; lia]|];
  split; [split; intros H;
          first [reflexivity | discriminate H | exfalso; lia]|];
  split; [split; intros H;
          first [reflexivity | discriminate H | exfalso; lia]|];
  split; [intros h; split; intros H;
          [cbn in H; first [discriminate H | injection H as <-; reflexivity]
          |cbn in H; destruct h; first [reflexivity | discriminate H]]|];
  split; [intros H; cbn in H;
          first [discriminate H
                | split; [lia|];
                  first [left; reflexivity | right; cbn; tauto]]
         |intros [Hr [H | H]]; cbn in H;
          first [reflexivity | discriminate H | exfalso; lia
                | exfalso; intuition lia]].

(** The table slot by slot, exactly.  It has the 42 slots 0 to 41 and no
    other.  Slot 0, and no other, holds the stack top; slot 1, and no
    other, the reset entry; a weak handler sits in a slot exactly when
    the slot number is the exception it is named for; and a slot holds
    zero exactly when its number is reserved or is one of the five
    interrupt slots 22, 30, 31, 32, 33. *)
Theorem vector_table_slots (k : nat) :
  (vector_table_init !! k = None <-> (42 <= k)%nat) /\
  (vector_table_init !! k = Some StackTop <-> k = 0%nat) /\
  (vector_table_init !! k = Some Reset <-> k = 1%nat) /\
  (forall h, vector_table_init !! k = Some (Weak h)
             <-> assigned k = Some (handler_exception h)) /\
  (vector_table_init !! k = Some Zero
   <-> (1 <= k < 42)%nat /\
       (assigned k = None \/ In k [22; 30; 31; 32; 33]%nat)).
Proof.
  destruct (Nat.lt_ge_cases k 42) as [Hlt|Hge].
  - do 42 (destruct k as [|k]; [clear Hlt; slot_case|]).
    exfalso. lia.
  - replace k with (42 + (k - 42))%nat by lia.
    generalize (k - 42)%nat. intros q.
    split; [split; [intros _; lia | reflexivity]|].
    split; [split; [discriminate | intros H; exfalso; lia]|].
    split; [split; [discriminate | intros H; exfalso; lia]|].
    split; [intros h; split; discriminate|].
    split; [discriminate | intros [H _]; exfalso; lia].
Qed.

Lemma assigned_inj (i j : nat) (e : exception) :
  assigned i = Some e -> assigned j = Some e -> i = j.
Proof.
  intros Hi Hj.
  assert (Hb : forall k, assigned k <> None -> (k < 42)%nat).
  { intros k Hk. destruct (Nat.lt_ge_cases k 42) as [Hlt|Hge]; [exact Hlt|].
    exfalso. apply Hk.
    replace k with (42 + (k - 42))%nat by lia.
    generalize (k - 42)%nat. intros q. reflexivity. }
  assert (Hi42 : (i < 42)%nat) by (apply Hb; congruence).
  assert (Hj42 : (j < 42)%nat) by (apply Hb; congruence).
  clear Hb.
  do 42 (destruct i as [|i]; [
    cbn in Hi;
    first [ discriminate Hi
          | do 42 (destruct j as [|j];
                   [cbn in Hj; first [reflexivity | congruence] |]); lia ] |]).
  lia.
Qed.

(** Every weak handler that vectors.c declares is installed, and in one
    slot only. *)
Theorem weak_handler_in_one_slot (h : handler) :
  exists k, vector_table_init !! k = Some (Weak h) /\
    forall j, vector_table_init !! j = Some (Weak h) -> j = k.
Proof.
  assert (Hex : exists k, vector_table_init !! k = Some (Weak h)).
  { destruct h;
      [exists 2%nat | exists 3%nat | exists 11%nat | exists 14%nat
      | exists 15%nat | exists 16%nat | exists 17%nat | exists 18%nat
      | exists 19%nat | exists 20%nat | exists 21%nat | exists 23%nat
      | exists 24%nat | exists 25%nat | exists 26%nat | exists 27%nat
      | exists 28%nat | exists 29%nat | exists 34%nat | exists 35%nat
      | exists 36%nat | exists 37%nat | exists 38%nat | exists 39%nat
      | exists 40%nat | exists 41%nat]; reflexivity. }
  destruct Hex as (k & Hk). exists k. split; [exact Hk|].
  intros j Hj.
  apply (assigned_inj j k (handler_exception h)).
  - apply vector_table_order. exact Hj.
  - apply vector_table_order. exact Hk.
Qed.

End VectorsMore.

(** ** More on the bring-up and the handler *)

Section MainMore.
Import Main.

Ltac addresses :=
  unfold RESETS_RESET, RESETS_RESET_CLR, RESETS_RESET_DONE, RESETS_BASE,
    GPIO25_CTRL, IO_BANK0_BASE, GPIO_OUT, GPIO_OE, GPIO_OUT_XOR, GPIO_OE_SET,
    SIO_BASE, SYST_CSR, SYST_RVR, SYST_CVR in *.

Ltac closed_tests :=
  repeat match goal with
         | |- context [?x =? ?y] =>
             let b := eval vm_compute in (x =? y) in
             match b with
             | true => change (x =? y) with true
             | false => change (x =? y) with false
             end; cbn iota
         end.

Ltac absurd_address := solve [exfalso; addresses; lia].

Ltac by_address :=
  unfold insert, fn_insert;
  repeat first
    [ progress closed_tests
    | match goal with
      | |- context [decide (?x = ?y)] =>
          destruct (decide (x = y)); try subst; try absurd_address
      end
    | match goal with
      | |- context [?x =? ?y] =>
          destruct (Z.eqb_spec x y); try subst; try absurd_address
      end ];
  try reflexivity; absurd_address.

Lemma LED_MASK_bit (i : Z) : Z.testbit LED_MASK i = (i =? LED_PIN).
Proof.
  change LED_MASK with (2 ^ 25). change LED_PIN with 25.
  rewrite Z.pow2_bits_eqb by lia. apply Z.eqb_sym.
Qed.

Lemma reset_mask_bit (i : Z) :
  Z.testbit (Z.lor RESET_IO_BANK0 RESET_PADS_BANK0) i
  = (i =? 5) || (i =? 8).
Proof.
  rewrite Z.lor_spec.
  change RESET_IO_BANK0 with (2 ^ 5). change RESET_PADS_BANK0 with (2 ^ 8).
  rewrite !Z.pow2_bits_eqb by lia.
  rewrite (Z.eqb_sym 5 i), (Z.eqb_sym 8 i). reflexivity.
Qed.

Lemma resets_init_effect (fuel : nat) (m m' : machine) :
  resets_init fuel m = Some m' ->
  (exists n,
     polls m' = (polls m + S n)%nat /\
     ready (reset_done m (polls m + n)) /\
     forall i, (i < n)%nat -> ~ ready (reset_done m (polls m + i))) /\
  tick_count m' = tick_count m /\
  (forall i, Z.testbit (regs m' RESETS_RESET) i
             = Z.testbit (regs m RESETS_RESET) i
               && negb ((i =? 5) || (i =? 8))) /\
  (forall a, regs m' a
             = if a =? RESETS_RESET
               then Z.ldiff (regs m RESETS_RESET)
                            (Z.lor RESET_IO_BANK0 RESET_PADS_BANK0)
               else regs m a).
Proof.
  unfold resets_init. intros Hr.
  destruct (poll_returned _ _ _ Hr) as (n & Hn & Hnot & Hready).
  destruct (poll_until_ready n _ fuel Hnot Hready Hn)
    as (m1 & Hr' & Htc & Hregs & _ & Hpolls & _).
  rewrite Hr in Hr'. injection Hr' as <-.
  cbn [write32 tick_count regs reset_done polls] in *.
  assert (Hall : forall a, regs m' a
             = if a =? RESETS_RESET
               then Z.ldiff (regs m RESETS_RESET)
                            (Z.lor RESET_IO_BANK0 RESET_PADS_BANK0)
               else regs m a).
  { intros a. rewrite Hregs, store_reset_clr. by_address. }
  split; [exists n; split; [exact Hpolls|]; split; assumption|].
  split; [exact Htc|]. split; [|exact Hall].
  intros i. rewrite Hall, Z.eqb_refl, Z.ldiff_spec, reset_mask_bit.
  reflexivity.
Qed.

(** Whenever [resets_init] returns, the last status it read showed both
    blocks out of reset and no earlier one did; it has cleared bits 5 and
    8 of the reset-control register and no other bit, and has changed no
    other register and not the tick counter. *)
Theorem resets_init_returned (fuel : nat) (m m' : machine) :
  resets_init fuel m = Some m' ->
  (exists n,
     polls m' = (polls m + S n)%nat /\
     ready (reset_done m (polls m + n)) /\
     forall i, (i < n)%nat -> ~ ready (reset_done m (polls m + i))) /\
  tick_count m' = tick_count m /\
  (forall i, Z.testbit (regs m' RESETS_RESET) i
             = Z.testbit (regs m RESETS_RESET) i
               && negb ((i =? 5) || (i =? 8))) /\
  (forall a, regs m' a
             = if a =? RESETS_RESET
               then Z.ldiff (regs m RESETS_RESET)
                            (Z.lor RESET_IO_BANK0 RESET_PADS_BANK0)
               else regs m a).
Proof. apply resets_init_effect. Qed.

Lemma resets_init_returned_witness :
  exists m',
    resets_init 3 (power_on (settles_after 2)) = Some m' /\
    tick_count m' = 0 /\
    Z.testbit (regs m' RESETS_RESET) 5 = false /\
    Z.testbit (regs m' RESETS_RESET) 6 = true /\
    regs m' SYST_CSR = 0.
Proof.
  eexists. split; [reflexivity|].
  destruct (resets_init_returned 3 (power_on (settles_after 2)) _ eq_refl)
    as (_ & Htc & Hbits & Hall).
  split; [exact Htc|]. split; [rewrite Hbits; reflexivity|].
  split; [rewrite Hbits; reflexivity|].
  rewrite Hall. reflexivity.
Defined.

(** [gpio_init] register by register: the function selector of GPIO 25
    becomes SIO; the output enable gains bit 25 and loses none; the
    output level has bit 25 flipped and every other bit as before; no
    other register and not the tick counter changes.  Being a toggle and
    not a set, a second call puts the output level back. *)
Theorem gpio_init_registers (m : machine) :
  tick_count (gpio_init m) = tick_count m /\
  (forall a, regs (gpio_init m) a
             = if a =? GPIO25_CTRL then FUNCSEL_SIO
               else if a =? GPIO_OE then Z.lor (regs m GPIO_OE) LED_MASK
               else if a =? GPIO_OUT then Z.lxor (regs m GPIO_OUT) LED_MASK
               else regs m a) /\
  (forall i, Z.testbit (regs (gpio_init m) GPIO_OE) i
             = Z.testbit (regs m GPIO_OE) i || (i =? LED_PIN)) /\
  (forall i, Z.testbit (regs (gpio_init m) GPIO_OUT) i
             = xorb (Z.testbit (regs m GPIO_OUT) i) (i =? LED_PIN)) /\
  regs (gpio_init (gpio_init m)) GPIO_OUT = regs m GPIO_OUT /\
  regs (gpio_init (gpio_init m)) GPIO_OE = regs (gpio_init m) GPIO_OE.
Proof.
  assert (Hall : forall m a, regs (gpio_init m) a
             = if a =? GPIO25_CTRL then FUNCSEL_SIO
               else if a =? GPIO_OE then Z.lor (regs m GPIO_OE) LED_MASK
               else if a =? GPIO_OUT then Z.lxor (regs m GPIO_OUT) LED_MASK
               else regs m a).
  { intros m0 a. unfold gpio_init. cbn [write32 regs].
    rewrite store_out_xor, store_oe_set, store_plain by discriminate.
    by_address. }
  split; [reflexivity|]. split; [apply Hall|].
  split; [|split; [|split]].
  - intros i. rewrite Hall. closed_tests.
    rewrite Z.lor_spec, LED_MASK_bit. reflexivity.
  - intros i. rewrite Hall. closed_tests.
    rewrite Z.lxor_spec, LED_MASK_bit. reflexivity.
  - rewrite !Hall. closed_tests.
    rewrite Z.lxor_assoc, Z.lxor_nilpotent, Z.lxor_0_r. reflexivity.
  - rewrite !Hall. closed_tests.
    rewrite <- Z.lor_assoc, Z.lor_diag. reflexivity.
Qed.

Lemma status_reads_snoc (done : nat -> Z) (k : nat) :
  forall p,
  status_reads done p (S k)
  = status_reads done p k ++ [Read32 RESETS_RESET_DONE (done (p + k)%nat)].
Proof.
  induction k as [|k IH]; intros p.
  - cbn. rewrite Nat.add_0_r. reflexivity.
  - change (status_reads done p (S (S k)))
      with (Read32 RESETS_RESET_DONE (done p)
            :: status_reads done (S p) (S k)).
    rewrite IH. cbn [status_reads app].
    replace (S p + k)%nat with (p + S k)%nat by lia. reflexivity.
Qed.

(** The bring-up as a whole, whenever it returns.  Its accesses are, in
    order: the write releasing the two blocks, status reads of which only
    the last shows them ready, the three pin writes, the three timer
    writes; so no pin register is written before the blocks are seen out
    of reset.  It leaves the tick counter alone and changes the seven
    registers below and no other. *)
Theorem bring_up_accesses (fuel : nat) (m m' : machine) :
  main_init fuel m = Some m' ->
  tick_count m' = tick_count m /\
  (exists n,
     (forall i, (i < n)%nat -> ~ ready (reset_done m (polls m + i))) /\
     ready (reset_done m (polls m + n)) /\
     since m m'
     = Write32 RESETS_RESET_CLR (Z.lor RESET_IO_BANK0 RESET_PADS_BANK0)
       :: status_reads (reset_done m) (polls m) n
       ++ [Read32 RESETS_RESET_DONE (reset_done m (polls m + n));
           Write32 GPIO25_CTRL FUNCSEL_SIO;
           Write32 GPIO_OE_SET LED_MASK;
           Write32 GPIO_OUT_XOR LED_MASK;
           Write32 SYST_RVR 5999; Write32 SYST_CVR 0; Write32 SYST_CSR 7]) /\
  (forall a, regs m' a
             = if a =? RESETS_RESET
               then Z.ldiff (regs m RESETS_RESET)
                            (Z.lor RESET_IO_BANK0 RESET_PADS_BANK0)
               else if a =? GPIO25_CTRL then FUNCSEL_SIO
               else if a =? GPIO_OE then Z.lor (regs m GPIO_OE) LED_MASK
               else if a =? GPIO_OUT then Z.lxor (regs m GPIO_OUT) LED_MASK
               else if a =? SYST_RVR then 5999
               else if a =? SYST_CVR then 0
               else if a =? SYST_CSR then 7
               else regs m a).
Proof.
  intros H.
  destruct (main_init_returned fuel m m' H)
    as (n & Hnot & Hready & Htc & Hsince & _).
  split; [exact Htc|]. split.
  - exists n. split; [exact Hnot|]. split; [exact Hready|].
    rewrite Hsince, status_reads_snoc, <- app_assoc. reflexivity.
  - unfold main_init in H.
    destruct (resets_init fuel m) as [m1|] eqn:Hr; [|discriminate].
    injection H as <-.
    destruct (resets_init_effect fuel m m1 Hr) as (_ & _ & _ & Hregs).
    intros a. unfold systick_init, gpio_init. cbn [write32 regs].
    change (wrap32 (6000 - 1)) with 5999.
    change (Z.lor (Z.lor (Z.shiftl 1 2) (Z.shiftl 1 1)) (Z.shiftl 1 0))
      with 7.
    unfold store. closed_tests.
    unfold insert, fn_insert. rewrite !Hregs.
    by_address.
Qed.

Lemma bring_up_accesses_witness :
  exists m',
    main_init 3 (power_on (settles_after 2)) = Some m' /\
    since (power_on (settles_after 2)) m'
    = [Write32 RESETS_RESET_CLR 288;
       Read32 RESETS_RESET_DONE 0; Read32 RESETS_RESET_DONE 0;
       Read32 RESETS_RESET_DONE 288;
       Write32 GPIO25_CTRL 5;
       Write32 GPIO_OE_SET 33554432;
       Write32 GPIO_OUT_XOR 33554432;
       Write32 SYST_RVR 5999; Write32 SYST_CVR 0; Write32 SYST_CSR 7] /\
    regs m' PADS_GPIO25 = 0.
Proof.
  eexists. split; [reflexivity|].
  destruct (bring_up_accesses 3 (power_on (settles_after 2)) _ eq_refl)
    as (_ & _ & Hregs).
  split; [reflexivity|]. rewrite Hregs. reflexivity.
Defined.

Lemma SysTick_Handler_rest (m : machine) :
  polls (SysTick_Handler m) = polls m /\
  reset_done (SysTick_Handler m) = reset_done m /\
  regs (SysTick_Handler m)
  = if wrap32 (tick_count m + 1) mod 500 =? 0
    then <[GPIO_OUT := Z.lxor (regs m GPIO_OUT) LED_MASK]> (regs m)
    else regs m.
Proof.
  unfold SysTick_Handler. cbn [set_tick_count tick_count].
  destruct (wrap32 (tick_count m + 1) mod 500 =? 0);
    repeat split; reflexivity.
Qed.

(** Everything [n] firings do besides counting. *)
Lemma fire_effects (n : nat) (m : machine) :
  exists l,
    trace (fire n m) = trace m ++ l /\
    Forall (fun e => e = Write32 GPIO_OUT_XOR LED_MASK) l /\
    polls (fire n m) = polls m /\
    forall a, regs (fire n m) a
              = if (a =? GPIO_OUT) && Nat.odd (toggles l)
                then Z.lxor (regs m a) LED_MASK else regs m a.
Proof.
  induction n as [|n IH].
  - exists []. cbn [fire]. rewrite app_nil_r.
    split; [reflexivity|]. split; [constructor|]. split; [reflexivity|].
    intros a. change (Nat.odd (toggles [])) with false.
    rewrite andb_false_r. reflexivity.
  - destruct IH as (l & Ht & Hall & Hp & Hr).
    rewrite fire_S.
    destruct (SysTick_Handler_step (fire n m)) as (_ & Ht').
    destruct (SysTick_Handler_rest (fire n m)) as (Hp' & _ & Hr').
    destruct (wrap32 (tick_count (fire n m) + 1) mod 500 =? 0).
    + exists (l ++ [Write32 GPIO_OUT_XOR LED_MASK]).
      split; [rewrite Ht', Ht, <- app_assoc; reflexivity|].
      split; [apply Forall_app; split; [exact Hall | repeat constructor]|].
      split; [congruence|].
      intros a. rewrite Hr', toggles_app.
      change (toggles [Write32 GPIO_OUT_XOR LED_MASK]) with 1%nat.
      rewrite Nat.add_1_r, Nat.odd_succ, <- Nat.negb_odd.
      unfold insert, fn_insert. rewrite !Hr.
      destruct (decide (GPIO_OUT = a)) as [<-|Hne].
      * rewrite Z.eqb_refl. cbn [andb].
        destruct (Nat.odd (toggles l)); cbn [negb]; [|reflexivity].
        rewrite Z.lxor_assoc, Z.lxor_nilpotent, Z.lxor_0_r. reflexivity.
      * replace (a =? GPIO_OUT) with false
          by (symmetry; apply Z.eqb_neq; congruence).
        reflexivity.
    + exists l. rewrite Ht', app_nil_r, Hr'.
      split; [exact Ht|]. split; [exact Hall|]. split; [congruence|exact Hr].
Qed.

(** The counter after [n] firings, wrap-around included: it is the start
    value plus [n] modulo 2^32, so it stays a 32-bit value and comes back
    to where it was after 2^32 firings. *)
Theorem tick_count_after_firings (m : machine) (n : nat) :
  0 <= tick_count m < 2 ^ 32 ->
  tick_count (fire n m) = (tick_count m + Z.of_nat n) mod 2 ^ 32 /\
  0 <= tick_count (fire n m) < 2 ^ 32 /\
  forall k : nat,
    Z.of_nat k = Z.of_nat n + 2 ^ 32 ->
    tick_count (fire k m) = tick_count (fire n m).
Proof.
  intros H0.
  assert (Hgen : forall k : nat,
            tick_count (fire k m) = (tick_count m + Z.of_nat k) mod 2 ^ 32).
  { induction k as [|k IH].
    - cbn [fire]. rewrite Z.add_0_r, Z.mod_small by exact H0. reflexivity.
    - rewrite fire_S. destruct (SysTick_Handler_step (fire k m)) as (Hc & _).
      rewrite Hc, IH. unfold wrap32.
      rewrite Z.add_mod_idemp_l by lia. f_equal. lia. }
  split; [apply Hgen|]. split.
  - rewrite Hgen. apply Z.mod_pos_bound. lia.
  - intros k Hk. rewrite !Hgen, Hk.
    replace (tick_count m + (Z.of_nat n + 2 ^ 32))
      with (tick_count m + Z.of_nat n + 1 * 2 ^ 32) by lia.
    apply Z.mod_add. lia.
Qed.

Lemma tick_count_after_firings_witness :
  tick_count (fire 5 (set_tick_count 4294967293 (power_on (fun _ => 0))))
  = (4294967293 + Z.of_nat 5) mod 2 ^ 32 /\
  0 <= tick_count (fire 5 (set_tick_count 4294967293
                             (power_on (fun _ => 0)))) < 2 ^ 32.
Proof.
  destruct (tick_count_after_firings
              (set_tick_count 4294967293 (power_on (fun _ => 0))) 5)
    as (H1 & H2 & _); [cbn; lia|].
  split; [exact H1 | exact H2].
Defined.

(** Away from the wrap-around the toggle is strictly periodic: from any
    counter value, [500 * k] consecutive firings toggle the pin exactly
    [k] times. *)
Theorem firings_toggle_once_per_500 (m : machine) (k : nat) :
  0 <= tick_count m -> tick_count m + 500 * Z.of_nat k < 2 ^ 32 ->
  toggles (since m (fire (500 * k) m)) = k.
Proof.
  intros H0 Hlim.
  destruct (fire_run m (500 * k)) as (_ & l & Ht & Hn); [exact H0 | lia |].
  rewrite (since_app _ _ _ Ht).
  replace (tick_count m + Z.of_nat (500 * k))
    with (tick_count m + Z.of_nat k * 500) in Hn by lia.
  rewrite Z.div_add in Hn by lia. lia.
Qed.

Lemma firings_toggle_once_per_500_witness :
  toggles (since (set_tick_count 123 (power_on (fun _ => 0)))
             (fire (500 * 2) (set_tick_count 123 (power_on (fun _ => 0)))))
  = 2%nat.
Proof.
  apply (firings_toggle_once_per_500
           (set_tick_count 123 (power_on (fun _ => 0))) 2); cbn; lia.
Defined.

(** What the handler never does: over any number of firings it reads no
    register, writes nothing but the LED mask to the toggle alias, and
    leaves every register other than the output level as it was; the
    output level is the initial one, with the LED bit flipped when the
    number of toggles is odd. *)
Theorem handler_only_toggles_led (n : nat) (m : machine) :
  Forall (fun e => e = Write32 GPIO_OUT_XOR LED_MASK) (since m (fire n m)) /\
  polls (fire n m) = polls m /\
  forall a, regs (fire n m) a
            = if (a =? GPIO_OUT) && Nat.odd (toggles (since m (fire n m)))
              then Z.lxor (regs m a) LED_MASK else regs m a.
Proof.
  destruct (fire_effects n m) as (l & Ht & Hall & Hp & Hr).
  rewrite (since_app _ _ _ Ht).
  split; [exact Hall|]. split; [exact Hp | exact Hr].
Qed.

(** The LED as a function of time.  Once the bring-up has returned from a
    counter of 0, the level of pin 25 after [n] timer firings is the
    opposite of its power-on level during the first 500 ticks, the
    power-on level during the next 500, and so on in turn. *)
Theorem led_waveform (fuel : nat) (m m' : machine) (n : nat) :
  main_init fuel m = Some m' ->
  tick_count m = 0 ->
  Z.of_nat n < 2 ^ 32 ->
  Z.testbit (regs (fire n m') GPIO_OUT) LED_PIN
  = xorb (Z.testbit (regs m GPIO_OUT) LED_PIN) (Nat.even (n / 500)).
Proof.
  intros Hinit H0 Hn.
  destruct (main_init_returned fuel m m' Hinit)
    as (_ & _ & _ & Htc & _ & Hout).
  rewrite H0 in Htc.
  destruct (fire_toggles_from_zero m' n Htc Hn) as (_ & Htog).
  destruct (fire_effects n m') as (l & Ht & _ & _ & Hr).
  rewrite (since_app _ _ _ Ht) in Htog.
  rewrite Hr, Z.eqb_refl, Htog, Hout. cbn [andb].
  replace (Z.to_nat (Z.of_nat n / 500)) with (n / 500)%nat
    by (change 500 with (Z.of_nat 500);
        rewrite <- Nat2Z.inj_div, Nat2Z.id; reflexivity).
  rewrite <- Nat.negb_odd.
  destruct (Nat.odd (n / 500)); cbn [negb];
    rewrite ?Z.lxor_spec, LED_MASK_bit, Z.eqb_refl;
    destruct (Z.testbit (regs m GPIO_OUT) LED_PIN); reflexivity.
Qed.

Lemma led_waveform_witness :
  exists m',
    main_init 3 (power_on (settles_after 2)) = Some m' /\
    Z.testbit (regs (fire 750 m') GPIO_OUT) LED_PIN = false.
Proof.
  eexists. split; [reflexivity|].
  apply (led_waveform 3 (power_on (settles_after 2)) _ 750);
    [reflexivity | reflexivity | cbn; lia].
Defined.

End MainMore.
